(** * node-docs-compare: normalisation of the documentation tree and the diff report

    A shallow embedding of [index.js].  The program downloads, for two major
    versions of Node.js, the JSON description of every documented module,
    flattens each description into a record of methods and classes
    ([createModuleForVersion]), and prints the methods of the newer version
    whose name the older version does not have (the loop at the end of the
    file's main function).

    What is modelled and how:
    - parsed JSON is typed after the fields the program reads; a field the
      program tests for truthiness before use is an [option];
    - a thrown exception is the [Throw] case of [result]; [try]/[catch] is a
      match on it;
    - the network, the cache directory and the HTML page are a pair of
      functions, the variables of [Section World];
    - standard output is the list of lines printed, the exit code a number;
      what goes to standard error is not recorded;
    - a string is the sequence of its code units, one character of [string]
      for each, and [String.length] is its [length]. *)

From Stdlib Require Import List String Ascii ZArith Lia Bool Arith DecimalString.
Import ListNotations.
Open Scope string_scope.
Open Scope list_scope.

Set Implicit Arguments.

(** ** Exceptions *)

Inductive exn : Type :=
| AssertionError   (* assert.strictEqual failed *)
| TypeError        (* property read on null or undefined *)
| RangeError       (* Array of invalid length *)
| ExternalError.   (* a failed download, an unreadable page or file *)

Inductive result (A : Type) : Type :=
| Ok (a : A)
| Throw (e : exn).

Arguments Ok {A} a.
Arguments Throw {A} e.

Definition bind {A B : Type} (r : result A) (k : A -> result B) : result B :=
  match r with
  | Ok a => k a
  | Throw e => Throw e
  end.

Notation "x <- r ;; k" := (bind r (fun x => k))
  (at level 61, r at next level, right associativity).
Notation "r ;;; k" := (bind r (fun _ => k))
  (at level 61, right associativity).

Definition throws {A : Type} (r : result A) : bool :=
  match r with
  | Ok _ => false
  | Throw _ => true
  end.

(** [assert.strictEqual(actual, expected)] on two numbers. *)
Definition assert_strictEqual (actual expected : nat) : result unit :=
  if Nat.eqb actual expected then Ok tt else Throw AssertionError.

(** [a.map(f)] for a callback that may throw: the first exception leaves the
    loop. *)
Fixpoint mapM {A B : Type} (f : A -> result B) (a : list A) : result (list B) :=
  match a with
  | [] => Ok []
  | x :: rest =>
      y <- f x ;;
      ys <- mapM f rest ;;
      Ok (y :: ys)
  end.

(** ** Parsed JSON, as upstream supplies it *)

Record RawReturn : Type := mkRawReturn
  { return_type : option string }.

Record RawSignature : Type := mkRawSignature
  { sig_return : option RawReturn }.

Record RawMethodDescriptor : Type := mkRawMethod
  { rm_name : string;
    rm_textRaw : string;
    rm_signatures : list RawSignature }.

Record RawClassDescriptor : Type := mkRawClass
  { rc_name : string;
    rc_methods : option (list RawMethodDescriptor) }.

Unset Elimination Schemes.
Inductive RawModuleNode : Type := mkRawModule
  { rn_name : string;
    rn_methods : option (list RawMethodDescriptor);
    rn_classes : option (list RawClassDescriptor);
    rn_modules : option (list RawModuleNode) }.
Set Elimination Schemes.

(** The document of one module, as [getModuleDefinition] returns it. *)
Record RawDocument : Type := mkRawDocument
  { doc_modules : option (list RawModuleNode) }.

(** The descendants of a node: its [modules] list, empty when absent. *)
Definition descendants (node : RawModuleNode) : list RawModuleNode :=
  match rn_modules node with
  | Some ds => ds
  | None => []
  end.

(** Induction on the tree of modules. *)
Section RawModuleNode_induction.
Variable P : RawModuleNode -> Prop.
Hypothesis P_node :
  forall node, Forall P (descendants node) -> P node.

Fixpoint RawModuleNode_ind (node : RawModuleNode) : P node :=
  let fix all (ds : list RawModuleNode) : Forall P ds :=
    match ds with
    | [] => Forall_nil P
    | d :: rest => Forall_cons d (RawModuleNode_ind d) (all rest)
    end in
  P_node node
    (match node as n return Forall P (descendants n) with
     | mkRawModule _ _ _ (Some ds) => all ds
     | mkRawModule _ _ _ None => Forall_nil P
     end).
End RawModuleNode_induction.

(** ** Normalised records *)

Record NormalizedMethod : Type := mkMethod
  { name : string;
    signature : string;
    returnType : option string }.   (* [None] is null *)

Record NormalizedClass : Type := mkClass
  { cls_methods : list NormalizedMethod;
    cls_name : string }.

Record NormalizedModule : Type := mkModule
  { mod_name : string;
    methods : list NormalizedMethod;
    classes : list NormalizedClass }.

(** ** [flatten] *)

(** An array whose elements are objects or arrays again. *)
Unset Elimination Schemes.
Inductive nested (A : Type) : Type :=
| Item (x : A)
| Arr (a : list (nested A)).
Set Elimination Schemes.

Arguments Item {A} x.
Arguments Arr {A} a.

Section Flatten.
Variable A : Type.

(** One step of the reduction: [[...acc, ...flatten(curr)]] for an array,
    [[...acc, curr]] otherwise. *)
Fixpoint flattenInto (acc : list A) (curr : nested A) : list A :=
  match curr with
  | Item x => acc ++ [x]
  | Arr a => acc ++ fold_left flattenInto a []
  end.

Definition flatten (a : list (nested A)) : list A :=
  fold_left flattenInto a [].
End Flatten.

(** ** [createMethod] *)

(** [v || null] for a value that is a string or undefined: the empty string
    is falsy. *)
Definition or_null (v : option string) : option string :=
  match v with
  | Some EmptyString => None
  | Some s => Some s
  | None => None
  end.

(** [s['return'] && s['return'].type] *)
Definition returnValueOf (s : RawSignature) : option string :=
  match sig_return s with
  | Some r => return_type r
  | None => None
  end.

Definition createMethod (m : RawMethodDescriptor) : result NormalizedMethod :=
  assert_strictEqual (List.length (rm_signatures m)) 1 ;;;
  match nth_error (rm_signatures m) 0 with
  | None => Throw TypeError
  | Some s0 =>
      let returnValue := returnValueOf s0 in
      Ok {| name := rm_name m;
            signature := rm_textRaw m;
            returnType := or_null returnValue |}
  end.

(** ** [createModuleForVersion] *)

(** The filter callback [(c) => c.methods]: an array is truthy, empty or
    not. *)
Definition hasMethods (c : RawClassDescriptor) : bool :=
  match rc_methods c with
  | Some _ => true
  | None => false
  end.

(** The map callback on a class that passed the filter. *)
Definition createClass (c : RawClassDescriptor) : result NormalizedClass :=
  match rc_methods c with
  | None => Throw TypeError
  | Some ms =>
      methods' <- mapM createMethod ms ;;
      Ok {| cls_methods := methods'; cls_name := rc_name c |}
  end.

(** Lines 94 to 98: the module's own methods. *)
Definition ownMethods (moduleMetadata : RawModuleNode) : result (list NormalizedMethod) :=
  match rn_methods moduleMetadata with
  | Some ms => mapM createMethod ms
  | None => Ok []
  end.

(** Lines 100 to 111: the module's own classes. *)
Definition ownClasses (moduleMetadata : RawModuleNode) : result (list NormalizedClass) :=
  match rn_classes moduleMetadata with
  | Some cs => mapM createClass (filter hasMethods cs)
  | None => Ok []
  end.

(** [try { return await f } catch (e) { console.error(..); return null }] *)
Definition catch_null {A : Type} (r : result A) : option A :=
  match r with
  | Ok a => Some a
  | Throw _ => None
  end.

(** [modules.map(m => m.field)], where an element may be null. *)
Definition pluck {A B : Type} (field : A -> B) (modules : list (option A)) : result (list B) :=
  mapM (fun m => match m with
                 | Some m' => Ok (field m')
                 | None => Throw TypeError
                 end) modules.

(** [[own, perModule]] as the argument of [flatten]: an array of objects and
    an array of arrays of objects. *)
Definition twoLevels {A : Type} (own : list A) (perModule : list (list A)) : list (nested A) :=
  [Arr (map Item own); Arr (map (fun a => Arr (map Item a)) perModule)].

(** The function from line 90 on, that is with [moduleMetadata] at hand; a
    recursive call passes the descendant itself, an object, so that it
    starts here too. *)
Fixpoint normalizeNode (moduleMetadata : RawModuleNode) : result NormalizedModule :=
  methods0 <- ownMethods moduleMetadata ;;
  classes0 <- ownClasses moduleMetadata ;;
  let modules : list (option NormalizedModule) :=
    match rn_modules moduleMetadata with
    | Some ds => map (fun m => catch_null (normalizeNode m)) ds
    | None => []
    end in
  ms <- pluck methods modules ;;
  cs <- pluck classes modules ;;
  Ok {| mod_name := rn_name moduleMetadata;
        methods := flatten (twoLevels methods0 ms);
        classes := flatten (twoLevels classes0 cs) |}.

(** What [Promise.all] resolves to in [normalizeNode]. *)
Definition expanded (moduleMetadata : RawModuleNode) : list (option NormalizedModule) :=
  map (fun m => catch_null (normalizeNode m)) (descendants moduleMetadata).

(** ** [pad] *)

Definition spaces (n : nat) : string := String.concat "" (repeat " " n).

(** [Array(n).fill(' ').join('')]; [Array(n)] throws for a negative [n]. *)
Definition pad (str : string) (paddingLength : Z) : result string :=
  let n := (paddingLength - Z.of_nat (String.length str))%Z in
  if (n <? 0)%Z then Throw RangeError
  else Ok (str ++ spaces (Z.to_nat n))%string.

Definition defaultPaddingLength : Z := 24.

(** ** The report *)

(** A number in a template string. *)
Definition showNat (n : nat) : string := NilEmpty.string_of_uint (Nat.to_uint n).

(** A return type in a template string. *)
Definition showReturnType (t : option string) : string :=
  match t with
  | Some s => s
  | None => "null"
  end.

Definition includes (names : list string) (x : string) : bool :=
  existsb (String.eqb x) names.

(** [newModule.methods.filter((m) => !oldModuleMethodNames.includes(m.name))] *)
Definition newMethodsOf (oldModule newModule : NormalizedModule) : list NormalizedMethod :=
  let oldModuleMethodNames := map name (methods oldModule) in
  filter (fun m => negb (includes oldModuleMethodNames (name m))) (methods newModule).

Definition methodLine (m : NormalizedMethod) : string :=
  ("- " ++ name m ++ ": " ++ showReturnType (returnType m))%string.

Definition findModule (newModules : list NormalizedModule) (oldModule : NormalizedModule)
  : option NormalizedModule :=
  find (fun m => String.eqb (mod_name m) (mod_name oldModule)) newModules.

(** The callback of [oldModules.forEach]: the lines it prints, or the
    exception it throws.  Both places that throw come before the first
    [console.log] of the call. *)
Definition diffModule (newModules : list NormalizedModule) (oldModule : NormalizedModule)
  : result (list string) :=
  match findModule newModules oldModule with
  | None => Throw TypeError
  | Some newModule =>
      let newMethods := newMethodsOf oldModule newModule in
      if Nat.eqb (List.length newMethods) 0 then Ok []
      else
        padded <- pad (mod_name newModule) defaultPaddingLength ;;
        Ok ((padded ++ " " ++ showNat (List.length newMethods) ++ " new")%string
              :: map methodLine newMethods)
  end.

(** What a run leaves behind. *)
Record Outcome : Type := mkOutcome
  { stdout : list string;
    exitCode : nat }.

(** [oldModules.forEach(..)] inside the [try] of the main function: an
    exception ends the loop and the process with code 1, after the lines
    already printed. *)
Fixpoint diffLoop (newModules oldModules : list NormalizedModule) : Outcome :=
  match oldModules with
  | [] => {| stdout := []; exitCode := 0 |}
  | oldModule :: rest =>
      match diffModule newModules oldModule with
      | Throw _ => {| stdout := []; exitCode := 1 |}
      | Ok block =>
          let later := diffLoop newModules rest in
          {| stdout := block ++ stdout later; exitCode := exitCode later |}
      end
  end.

Section World.
(** [mkdir dir]: the directory is there afterwards, or the call throws. *)
Variable mkdir : string -> result unit.
(** [getModuleDefinition moduleName majorVersion]: the cached or downloaded
    document. *)
Variable getModuleDefinition : string -> string -> result RawDocument.
(** [fetchModuleList majorVersion]: the module names of the synopsis page. *)
Variable fetchModuleList : string -> result (list string).

Definition createModuleForVersion (moduleName majorVersion : string)
    (moduleMetadata : option RawModuleNode) : result (option NormalizedModule) :=
  match moduleMetadata with
  | Some given => m <- normalizeNode given ;; Ok (Some m)
  | None =>
      topLevelModule <- getModuleDefinition moduleName majorVersion ;;
      match doc_modules topLevelModule with
      | None => Ok None
      | Some top =>
          assert_strictEqual (List.length top) 1 ;;;
          match nth_error top 0 with
          | None => Throw TypeError
          | Some first => m <- normalizeNode first ;; Ok (Some m)
          end
      end
  end.

(** The two [for] loops of the main function: one module after the other,
    a null result is not pushed. *)
Fixpoint collectModules (majorVersion : string) (moduleList : list string)
  : result (list NormalizedModule) :=
  match moduleList with
  | [] => Ok []
  | moduleName :: rest =>
      m <- createModuleForVersion moduleName majorVersion None ;;
      later <- collectModules majorVersion rest ;;
      Ok (match m with
          | Some m' => m' :: later
          | None => later
          end)
  end.

Definition loadVersion (majorVersion : string) : result (list NormalizedModule) :=
  moduleList <- fetchModuleList majorVersion ;;
  collectModules majorVersion moduleList.

(** The statements of the [try] block that come before the report. *)
Definition loadBoth (olderVersion newerVersion : string)
  : result (list NormalizedModule * list NormalizedModule) :=
  mkdir ("./cache/" ++ olderVersion)%string ;;;
  mkdir ("./cache/" ++ newerVersion)%string ;;;
  oldModules <- loadVersion olderVersion ;;
  newModules <- loadVersion newerVersion ;;
  Ok (oldModules, newModules).

(** The main function once its two arguments are accepted; the [catch]
    prints the exception on standard error and exits with code 1. *)
Definition main (olderVersion newerVersion : string) : Outcome :=
  match loadBoth olderVersion newerVersion with
  | Throw _ => {| stdout := []; exitCode := 1 |}
  | Ok (oldModules, newModules) => diffLoop newModules oldModules
  end.
End World.

(** ** Downloads, the cache and the synopsis page *)

(** The functions of the file that talk to the outside, over what they
    are given by Node.js and the two packages: the file system, the JSON
    codec, [fetch] and the selection of elements in a page. *)
Module Io.

(** What [fetch] resolves to; [text] is what [response.text()] resolves to. *)
Record Response : Type := mkResponse
  { ok : bool;
    status : nat;
    text : result string }.

(** The four functions of [fs] in use, on a state of the disk. *)
Record FileSystem : Type := mkFileSystem
  { Disk : Type;
    existsSync : Disk -> string -> bool;
    readFileSync : Disk -> string -> result string;
    writeFileSync : Disk -> string -> string -> Disk * result unit;
    mkdirSync : Disk -> string -> Disk * result unit }.

(** [JSON.parse] and [JSON.stringify] on the values they exchange. *)
Record JsonCodec : Type := mkJsonCodec
  { Json : Type;
    parse : string -> result Json;
    stringify : Json -> string }.

Definition mkdir (F : FileSystem) (d : Disk F) (dir : string) : Disk F * result unit :=
  if existsSync F d dir then (d, Ok tt)
  else mkdirSync F d dir.

Definition get (fetch : string -> result Response) (uri : string) : result string :=
  response <- fetch uri ;;
  responseText <- text response ;;
  if negb (ok response) then Throw ExternalError
  else Ok responseText.

Definition getJson (J : JsonCodec) (fetch : string -> result Response) (uri : string)
  : result (Json J) :=
  text' <- get fetch uri ;;
  parse J text'.

Definition synopsisUri (majorVersion : string) : string :=
  ("https://nodejs.org/docs/latest-v" ++ majorVersion ++ ".x/api/synopsis.html")%string.

Definition moduleUri (majorVersion moduleName : string) : string :=
  ("https://nodejs.org/docs/latest-v" ++ majorVersion ++ ".x/api/" ++ moduleName
     ++ ".json")%string.

Definition cachedFilePath (majorVersion moduleName : string) : string :=
  ("./cache/" ++ majorVersion ++ "/" ++ moduleName ++ ".json")%string.

Definition getModuleDefinition (F : FileSystem) (J : JsonCodec)
    (fetch : string -> result Response) (d : Disk F) (moduleName majorVersion : string)
  : Disk F * result (Json J) :=
  if existsSync F d (cachedFilePath majorVersion moduleName) then
    (d, content <- readFileSync F d (cachedFilePath majorVersion moduleName) ;;
        parse J content)
  else
    match getJson J fetch (moduleUri majorVersion moduleName) with
    | Throw e => (d, Throw e)
    | Ok module =>
        let (d', written) :=
          writeFileSync F d (cachedFilePath majorVersion moduleName) (stringify J module) in
        (d', written ;;; Ok module)
    end.

(** A node of a parsed page: an element with its attributes and children,
    or a text or comment node, which has neither. *)
Unset Elimination Schemes.
Inductive DomNode : Type :=
| DomElement (type name : string) (attribs : list (string * string))
    (children : list DomNode)
| DomData (type data : string).
Set Elimination Schemes.

(** [attribs.href] and the like; undefined is [None]. *)
Fixpoint attribute (attribs : list (string * string)) (key : string) : option string :=
  match attribs with
  | [] => None
  | (k, v) :: rest => if String.eqb k key then Some v else attribute rest key
  end.

(** [(elem) => elem.type === 'tag' && elem.name === 'li'] *)
Definition isListItem (elem : DomNode) : bool :=
  match elem with
  | DomElement type name _ _ => String.eqb type "tag" && String.eqb name "li"
  | DomData _ _ => false
  end.

(** [(elem) => elem.children[0].attribs.href] *)
Definition firstChildHref (elem : DomNode) : result (option string) :=
  match elem with
  | DomElement _ _ _ (DomElement _ _ attribs _ :: _) => Ok (attribute attribs "href")
  | _ => Throw TypeError
  end.

(** [s.split('.')[0]]: what is before the first dot. *)
Fixpoint beforeDot (s : string) : string :=
  match s with
  | EmptyString => EmptyString
  | String c rest => if Ascii.eqb c "." then EmptyString else String c (beforeDot rest)
  end.

(** [(moduleHtmlLink) => moduleHtmlLink.split('.')[0]] *)
Definition linkStem (moduleHtmlLink : option string) : result string :=
  match moduleHtmlLink with
  | Some s => Ok (beforeDot s)
  | None => Throw TypeError
  end.

(** [selectUl page] stands for [cheerio.load(page)('ul')], the [ul]
    elements of the page in document order. *)
Definition fetchModuleList (fetch : string -> result Response)
    (selectUl : string -> list DomNode) (majorVersion : string) : result (list string) :=
  synopsisPage <- get fetch (synopsisUri majorVersion) ;;
  match nth_error (selectUl synopsisPage) 1 with
  | Some (DomElement _ _ _ children) =>
      links <- mapM firstChildHref (filter isListItem children) ;;
      mapM linkStem links
  | _ => Throw TypeError
  end.

(** What the file relies on from [fs] and [JSON]. *)

(** The file at [path], once written with [content], is there and is read
    with that content. *)
Definition ReadsBack (F : FileSystem) (path content : string) : Prop :=
  forall d d',
    writeFileSync F d path content = (d', Ok tt) ->
    existsSync F d' path = true /\ readFileSync F d' path = Ok content.

Definition MkdirThenExists (F : FileSystem) : Prop :=
  forall d dir d',
    mkdirSync F d dir = (d', Ok tt) -> existsSync F d' dir = true.

End Io.

(** ** Vocabulary of the specification *)

(** All raw class descriptors a normalisation meets: those of the module,
    then those of each descendant in turn. *)
Fixpoint rawClasses (node : RawModuleNode) : list RawClassDescriptor :=
  match rn_classes node with
  | Some cs => cs
  | None => []
  end ++
  match rn_modules node with
  | Some ds => List.concat (map rawClasses ds)
  | None => []
  end.

(** A class that declares at least one raw method. *)
Definition declaresMethod (c : RawClassDescriptor) : bool :=
  match rc_methods c with
  | Some (_ :: _) => true
  | _ => false
  end.

(** A method descriptor whose [signatures] has not exactly one element. *)
Definition badSignatures (m : RawMethodDescriptor) : bool :=
  negb (Nat.eqb (List.length (rm_signatures m)) 1).

Definition classHasBadMethod (c : RawClassDescriptor) : bool :=
  match rc_methods c with
  | Some ms => existsb badSignatures ms
  | None => false
  end.

(** Such a descriptor among the methods of the module, of its classes or of
    a descendant. *)
Fixpoint hasBadMethod (node : RawModuleNode) : bool :=
  match rn_methods node with
  | Some ms => existsb badSignatures ms
  | None => false
  end ||
  match rn_classes node with
  | Some cs => existsb classHasBadMethod cs
  | None => false
  end ||
  match rn_modules node with
  | Some ds => existsb hasBadMethod ds
  | None => false
  end.

Definition docHasBadMethod (doc : RawDocument) : bool :=
  match doc_modules doc with
  | Some top => existsb hasBadMethod top
  | None => false
  end.

(** ** Sample documents *)

Definition sig_plain : RawSignature := mkRawSignature None.

Definition sig_returning (t : string) : RawSignature :=
  mkRawSignature (Some (mkRawReturn (Some t))).

Definition methodNamed (n : string) (sigs : list RawSignature) : RawMethodDescriptor :=
  mkRawMethod n (n ++ "()")%string sigs.

Definition leafModule (n : string) (ms : list RawMethodDescriptor) : RawModuleNode :=
  mkRawModule n (Some ms) None None.

(** A method whose declared return type is the empty string. *)
Definition method_emptyType : RawMethodDescriptor :=
  methodNamed "f" [sig_returning ""].

(** A class with a [methods] list that is empty, in a module of its own. *)
Definition class_noMethods : RawClassDescriptor := mkRawClass "Empty" (Some []).

Definition node_emptyClass : RawModuleNode :=
  mkRawModule "m" None (Some [class_noMethods]) None.

(** A module with methods, classes and two descendants, one of them nested
    further. *)
Definition node_fs : RawModuleNode :=
  mkRawModule "fs"
    (Some [methodNamed "readFile" [sig_plain]])
    (Some [mkRawClass "Stats" (Some [methodNamed "isFile" [sig_returning "boolean"]]);
           mkRawClass "Dir" None])
    (Some [leafModule "promises" [methodNamed "open" [sig_returning "Promise"]];
           mkRawModule "constants" None
             (Some [mkRawClass "Flags" (Some [])])
             (Some [leafModule "inner" [methodNamed "get" [sig_plain]]])]).

(** A descendant with a method of no signature, beside a sound one. *)
Definition node_brokenChild : RawModuleNode :=
  leafModule "broken" [methodNamed "g" []].

Definition node_parentOfBroken : RawModuleNode :=
  mkRawModule "parent"
    (Some [methodNamed "own" [sig_plain]])
    None
    (Some [leafModule "sound" [methodNamed "h" [sig_plain]]; node_brokenChild]).

(** The documents of a version, by module name; a name that is not listed
    cannot be downloaded. *)
Fixpoint lookupDoc (docs : list (string * RawDocument)) (moduleName : string)
  : result RawDocument :=
  match docs with
  | [] => Throw ExternalError
  | (n, doc) :: rest => if String.eqb n moduleName then Ok doc else lookupDoc rest moduleName
  end.

(** A site with the documents [older] for version 10 and [newer] for every
    other version. *)
Definition siteOf (older newer : list (string * RawDocument))
  : string -> string -> result RawDocument :=
  fun moduleName majorVersion =>
    if String.eqb majorVersion "10" then lookupDoc older moduleName
    else lookupDoc newer moduleName.

(** The synopsis page lists the documents of the version. *)
Definition synopsisOf (older newer : list (string * RawDocument))
  : string -> result (list string) :=
  fun majorVersion =>
    Ok (map fst (if String.eqb majorVersion "10" then older else newer)).

(** The cache directories can be made. *)
Definition cacheReady : string -> result unit := fun _ => Ok tt.

Definition doc_addons : RawDocument := mkRawDocument None.

Definition doc_fs10 : RawDocument :=
  mkRawDocument (Some [leafModule "fs" [methodNamed "readFile" [sig_plain]]]).

Definition doc_fs12 : RawDocument := mkRawDocument (Some [node_fs]).

Definition doc_broken : RawDocument := mkRawDocument (Some [node_parentOfBroken]).

(** A document with two modules at its top, and one with none. *)
Definition doc_twoTop : RawDocument :=
  mkRawDocument (Some [leafModule "a" []; leafModule "b" []]).

Definition doc_noTop : RawDocument := mkRawDocument (Some []).

(** What [node_fs] is normalised to. *)
Definition normalized_fs : NormalizedModule :=
  {| mod_name := "fs";
     methods :=
       [ {| name := "readFile"; signature := "readFile()"; returnType := None |};
         {| name := "open"; signature := "open()"; returnType := Some "Promise" |};
         {| name := "get"; signature := "get()"; returnType := None |} ];
     classes :=
       [ {| cls_methods :=
              [ {| name := "isFile"; signature := "isFile()";
                   returnType := Some "boolean" |} ];
            cls_name := "Stats" |};
         {| cls_methods := []; cls_name := "Flags" |} ] |}.

Definition docs10 : list (string * RawDocument) :=
  [("addons", doc_addons); ("fs", doc_fs10)].

Definition docs12 : list (string * RawDocument) :=
  [("addons", doc_addons); ("fs", doc_fs12)].

Definition docs12_broken : list (string * RawDocument) :=
  [("fs", doc_fs12); ("broken", doc_broken)].

Definition docs12_twoTop : list (string * RawDocument) :=
  [("two", doc_twoTop); ("none", doc_noTop); ("fs", doc_fs12)].

(** Normalised modules for the report. *)
Definition plainMethod (n : string) : NormalizedMethod :=
  {| name := n; signature := (n ++ "()")%string; returnType := None |}.

Definition moduleOf (n : string) (ms : list NormalizedMethod) : NormalizedModule :=
  {| mod_name := n; methods := ms; classes := [] |}.

(** Twenty-five characters. *)
Definition longName : string := "abcdefghijklmnopqrstuvwxy".

Definition module_A_old : NormalizedModule := moduleOf "A" [plainMethod "x"].

Definition module_A_new : NormalizedModule :=
  moduleOf "A"
    [plainMethod "x";
     {| name := "y"; signature := "y()"; returnType := Some "string" |};
     plainMethod "z"].

(** A module that only the newer version has. *)
Definition module_B_new : NormalizedModule := moduleOf "B" [plainMethod "w"].

(** The same long name in both versions, and one more method in the newer. *)
Definition module_long_old : NormalizedModule := moduleOf longName [].

Definition module_long_new : NormalizedModule := moduleOf longName [plainMethod "f"].

(** ** Further vocabulary and samples *)

(** The leaves of a nested array, from left to right. *)
Fixpoint leaves {A : Type} (curr : nested A) : list A :=
  match curr with
  | Item x => [x]
  | Arr a => List.concat (map leaves a)
  end.

(** All raw method descriptors that end in the [methods] list: those of the
    module, then those of each descendant in turn; the methods of classes
    are not among them. *)
Fixpoint rawMethods (node : RawModuleNode) : list RawMethodDescriptor :=
  match rn_methods node with
  | Some ms => ms
  | None => []
  end ++
  match rn_modules node with
  | Some ds => List.concat (map rawMethods ds)
  | None => []
  end.

(** A wrong number of signatures among the module's own methods or the
    methods of its own classes. *)
Definition ownBadMethod (node : RawModuleNode) : bool :=
  match rn_methods node with
  | Some ms => existsb badSignatures ms
  | None => false
  end ||
  match rn_classes node with
  | Some cs => existsb classHasBadMethod cs
  | None => false
  end.

(** The modules that are pushed, out of the results of the calls. *)
Definition pushed (results : list (option NormalizedModule)) : list NormalizedModule :=
  flat_map (fun m => match m with
                     | Some m' => [m']
                     | None => []
                     end) results.

(** An older module whose callback in the report does not throw: it has a
    module of its name in the newer set, with nothing new or with a name
    that fits the column. *)
Definition reportable (newModules : list NormalizedModule) (oldModule : NormalizedModule)
  : bool :=
  match findModule newModules oldModule with
  | None => false
  | Some newModule =>
      match newMethodsOf oldModule newModule with
      | [] => true
      | _ :: _ => Nat.leb (String.length (mod_name newModule)) 24
      end
  end.

Definition noDot (s : string) : Prop := ~ In "."%char (list_ascii_of_string s).

Definition noSlash (s : string) : Prop := ~ In "/"%char (list_ascii_of_string s).

(** The directory of a path: what is before its last slash, if it has
    one. *)
Fixpoint parentOf (path : string) : option string :=
  match path with
  | EmptyString => None
  | String c rest =>
      match parentOf rest with
      | Some dir => Some (String c dir)
      | None => if Ascii.eqb c "/" then Some EmptyString else None
      end
  end.

(** A disk in memory: a path is a file with its content or a directory,
    the latest entry first; a file is written only into a directory that
    exists, or beside the program when its path has no slash. *)
Definition memoryDisk : Io.FileSystem :=
  let entry (d : list (string * option string)) (path : string) :=
    find (fun e => String.eqb (fst e) path) d in
  {| Io.Disk := list (string * option string);
     Io.existsSync := fun d path =>
       match entry d path with
       | Some _ => true
       | None => false
       end;
     Io.readFileSync := fun d path =>
       match entry d path with
       | Some (_, Some content) => Ok content
       | _ => Throw ExternalError
       end;
     Io.writeFileSync := fun d path content =>
       match parentOf path with
       | Some dir =>
           match entry d dir with
           | Some (_, None) => ((path, Some content) :: d, Ok tt)
           | _ => (d, Throw ExternalError)
           end
       | None => ((path, Some content) :: d, Ok tt)
       end;
     Io.mkdirSync := fun d dir => ((dir, None) :: d, Ok tt) |}.

(** A codec whose values are the texts themselves. *)
Definition textCodec : Io.JsonCodec :=
  {| Io.Json := string; Io.parse := fun t => Ok t; Io.stringify := fun v => v |}.

(** Two values and a codec on them that does as [JSON] does with a number
    too large: the text [1e400] is parsed as Infinity, which is written as
    [null]. *)
Inductive SampleValue : Type :=
| SampleInfinity
| SampleNull.

Definition sampleCodec : Io.JsonCodec :=
  {| Io.Json := SampleValue;
     Io.parse := fun t =>
       if String.eqb t "1e400" then Ok SampleInfinity
       else if String.eqb t "null" then Ok SampleNull
       else Throw ExternalError;
     Io.stringify := fun _ => "null" |}.

(** A site that answers every request with the same body. *)
Definition answering (body : string) : string -> result Io.Response :=
  fun _ => Ok {| Io.ok := true; Io.status := 200; Io.text := Ok body |}.

(** A site that is down. *)
Definition unreachable : string -> result Io.Response :=
  fun _ => Throw ExternalError.

(** An entry of the list of modules in the synopsis page. *)
Definition listEntry (href title : string) : Io.DomNode :=
  Io.DomElement "tag" "li" []
    [Io.DomElement "tag" "a" [("href", href)] [Io.DomData "text" title]].

(** A page with a short list first and the list of modules second, its
    entries separated by white space. *)
Definition sampleUls : list Io.DomNode :=
  [ Io.DomElement "tag" "ul" [] [listEntry "#usage" "Usage"];
    Io.DomElement "tag" "ul" []
      [ Io.DomData "text" " ";
        listEntry "assert.html" "Assertion testing";
        Io.DomData "text" " ";
        listEntry "fs.html" "File system";
        Io.DomData "text" " ";
        listEntry "worker_threads.html#top" "Worker threads" ] ].

(** Induction on a nested array. *)
Section nested_induction.
Variable A : Type.
Variable P : nested A -> Prop.
Hypothesis P_Item : forall x, P (Item x).
Hypothesis P_Arr : forall a, Forall P a -> P (Arr a).

Fixpoint nested_ind (curr : nested A) : P curr :=
  match curr with
  | Item x => P_Item x
  | Arr a =>
      P_Arr ((fix all (l : list (nested A)) : Forall P l :=
                match l with
                | [] => Forall_nil P
                | c :: rest => Forall_cons c (nested_ind c) (all rest)
                end) a)
  end.
End nested_induction.

(** * Properties *)

(** ** The exception monad *)

Lemma bind_Ok_inv {A B : Type} (r : result A) (k : A -> result B) (b : B) :
  bind r k = Ok b -> exists a, r = Ok a /\ k a = Ok b.
Proof.
  destruct r as [a|e]; simpl; intro H.
  - exists a. split; [reflexivity | exact H].
  - discriminate H.
Qed.

Lemma throws_true {A : Type} (r : result A) :
  throws r = true <-> exists e, r = Throw e.
Proof.
  destruct r as [a|e]; simpl; split; intro H.
  - discriminate H.
  - destruct H as [e H]. discriminate H.
  - exists e. reflexivity.
  - reflexivity.
Qed.

Ltac bind_inv H :=
  let a := fresh "a" in
  let Ha := fresh "Ha" in
  apply bind_Ok_inv in H; destruct H as (a & Ha & H).

Lemma mapM_Ok_Forall2 {A B : Type} (f : A -> result B) (a : list A) (ys : list B) :
  mapM f a = Ok ys <-> Forall2 (fun x y => f x = Ok y) a ys.
Proof.
  revert ys. induction a as [|x rest IH]; intros ys; simpl.
  - split; intro H.
    + injection H as <-. constructor.
    + inversion H. reflexivity.
  - split; intro H.
    + bind_inv H. bind_inv H. injection H as <-.
      constructor; [assumption | apply IH; assumption].
    + inversion H as [|x' y rest' ys' Hx Hrest]; subst.
      rewrite Hx. simpl. apply IH in Hrest. rewrite Hrest. reflexivity.
Qed.

Lemma mapM_throws {A B : Type} (f : A -> result B) (a : list A) :
  throws (mapM f a) = existsb (fun x => throws (f x)) a.
Proof.
  induction a as [|x rest IH]; simpl.
  - reflexivity.
  - destruct (f x) as [y|e]; simpl.
    + destruct (mapM f rest) as [ys|e]; simpl in *; exact IH.
    + reflexivity.
Qed.

(** ** [flatten] *)

Section FlattenFacts.
Variable A : Type.

(** The function is the reduction the source writes. *)
Lemma flatten_unfold (a : list (nested A)) :
  flatten a =
  fold_left (fun acc curr =>
               match curr with
               | Arr c => acc ++ flatten c
               | Item x => acc ++ [x]
               end) a [].
Proof.
  unfold flatten.
  set (step := fun (acc : list A) (curr : nested A) =>
                 match curr with
                 | Arr c => acc ++ fold_left (@flattenInto A) c []
                 | Item x => acc ++ [x]
                 end).
  assert (H : forall acc, fold_left (@flattenInto A) a acc = fold_left step a acc).
  { induction a as [|curr rest IH]; intro acc; simpl.
    - reflexivity.
    - rewrite IH. destruct curr; reflexivity. }
  apply H.
Qed.

Lemma fold_flattenInto_acc (a : list (nested A)) (acc : list A) :
  fold_left (@flattenInto A) a acc = acc ++ flatten a.
Proof.
  unfold flatten. revert acc.
  induction a as [|curr rest IH]; intro acc; simpl.
  - rewrite app_nil_r. reflexivity.
  - rewrite IH. rewrite (IH (flattenInto [] curr)).
    rewrite app_assoc. f_equal.
    destruct curr; simpl; reflexivity.
Qed.

Lemma flatten_cons (curr : nested A) (rest : list (nested A)) :
  flatten (curr :: rest) = flattenInto [] curr ++ flatten rest.
Proof.
  unfold flatten at 1. simpl. apply fold_flattenInto_acc.
Qed.

Lemma flatten_items (l : list A) : flatten (map Item l) = l.
Proof.
  induction l as [|x l IH]; [reflexivity|].
  simpl map. rewrite flatten_cons, IH. reflexivity.
Qed.

Lemma flatten_arrays (per : list (list A)) :
  flatten (map (fun a => Arr (map Item a)) per) = List.concat per.
Proof.
  induction per as [|a per IH]; [reflexivity|].
  simpl map. rewrite flatten_cons, IH. simpl.
  fold (flatten (map Item a)). rewrite flatten_items. reflexivity.
Qed.

Lemma flatten_twoLevels (own : list A) (per : list (list A)) :
  flatten (twoLevels own per) = own ++ List.concat per.
Proof.
  unfold twoLevels. rewrite !flatten_cons. simpl.
  fold (flatten (map Item own)).
  fold (flatten (map (fun a => Arr (map Item a)) per)).
  rewrite flatten_items, flatten_arrays, app_nil_r. reflexivity.
Qed.
End FlattenFacts.

(** ** Normalisation of a node *)

Lemma normalizeNode_eq (moduleMetadata : RawModuleNode) :
  normalizeNode moduleMetadata =
  (methods0 <- ownMethods moduleMetadata ;;
   classes0 <- ownClasses moduleMetadata ;;
   ms <- pluck methods (expanded moduleMetadata) ;;
   cs <- pluck classes (expanded moduleMetadata) ;;
   Ok {| mod_name := rn_name moduleMetadata;
         methods := flatten (twoLevels methods0 ms);
         classes := flatten (twoLevels classes0 cs) |}).
Proof.
  destruct moduleMetadata as [n ms cs [ds|]]; reflexivity.
Qed.

Section Pluck.
Variables (A B C : Type) (field : B -> C) (g : A -> result B).

Lemma pluck_Ok_inv (ds : list A) (xs : list C) :
  pluck field (map (fun d => catch_null (g d)) ds) = Ok xs ->
  exists rs, Forall2 (fun d r => g d = Ok r) ds rs /\ xs = map field rs.
Proof.
  unfold pluck. revert xs.
  induction ds as [|d ds IH]; intros xs H; simpl in H.
  - injection H as <-. exists []. split; constructor.
  - bind_inv H. bind_inv H. injection H as <-.
    destruct (g d) as [r|e] eqn:Hd; simpl in Ha; [|discriminate Ha].
    injection Ha as <-.
    destruct (IH _ Ha0) as (rs & Hrs & ->).
    exists (r :: rs). split; [constructor; assumption | reflexivity].
Qed.

Lemma pluck_Ok_intro (ds : list A) (rs : list B) :
  Forall2 (fun d r => g d = Ok r) ds rs ->
  pluck field (map (fun d => catch_null (g d)) ds) = Ok (map field rs).
Proof.
  unfold pluck. induction 1 as [|d r ds rs Hd _ IH]; simpl.
  - reflexivity.
  - rewrite Hd. simpl. rewrite IH. reflexivity.
Qed.

(** One null among the results and the property read throws. *)
Lemma pluck_null (ds : list A) (d : A) :
  In d ds -> throws (g d) = true ->
  pluck field (map (fun d => catch_null (g d)) ds) = Throw TypeError.
Proof.
  unfold pluck. induction ds as [|d' ds IH]; intros Hin Hd; [destruct Hin|].
  simpl. destruct (g d') as [r|e] eqn:Hd'; simpl.
  - destruct Hin as [->|Hin].
    + rewrite Hd' in Hd. discriminate Hd.
    + rewrite (IH Hin Hd). reflexivity.
  - reflexivity.
Qed.
End Pluck.

Lemma Forall2_Ok_functional {A B : Type} (g : A -> result B) (ds : list A) (rs rs' : list B) :
  Forall2 (fun d r => g d = Ok r) ds rs ->
  Forall2 (fun d r => g d = Ok r) ds rs' ->
  rs = rs'.
Proof.
  intro H. revert rs'. induction H as [|d r ds rs Hd _ IH]; intros rs' H'.
  - inversion H'. reflexivity.
  - inversion H' as [|d' r' ds' rs'' Hd' Hrest]; subst.
    rewrite Hd in Hd'. injection Hd' as <-. f_equal. apply IH. assumption.
Qed.

Lemma normalizeNode_inv (node : RawModuleNode) (r : NormalizedModule) :
  normalizeNode node = Ok r ->
  exists ms cs rs,
    ownMethods node = Ok ms /\
    ownClasses node = Ok cs /\
    Forall2 (fun d rd => normalizeNode d = Ok rd) (descendants node) rs /\
    r = {| mod_name := rn_name node;
           methods := ms ++ List.concat (map methods rs);
           classes := cs ++ List.concat (map classes rs) |}.
Proof.
  rewrite normalizeNode_eq. intro H.
  apply bind_Ok_inv in H. destruct H as (ms & Hms & H).
  apply bind_Ok_inv in H. destruct H as (cs & Hcs & H).
  apply bind_Ok_inv in H. destruct H as (pm & Hpm & H).
  apply bind_Ok_inv in H. destruct H as (pc & Hpc & H).
  injection H as <-.
  apply pluck_Ok_inv in Hpm. destruct Hpm as (rs & Hrs & ->).
  apply pluck_Ok_inv in Hpc. destruct Hpc as (rs' & Hrs' & ->).
  rewrite (Forall2_Ok_functional _ Hrs' Hrs).
  exists ms, cs, rs. rewrite !flatten_twoLevels. auto.
Qed.

Lemma normalizeNode_intro (node : RawModuleNode)
    (ms : list NormalizedMethod) (cs : list NormalizedClass) (rs : list NormalizedModule) :
  ownMethods node = Ok ms ->
  ownClasses node = Ok cs ->
  Forall2 (fun d rd => normalizeNode d = Ok rd) (descendants node) rs ->
  normalizeNode node =
  Ok {| mod_name := rn_name node;
        methods := ms ++ List.concat (map methods rs);
        classes := cs ++ List.concat (map classes rs) |}.
Proof.
  intros Hms Hcs Hrs. rewrite normalizeNode_eq, Hms, Hcs. simpl.
  unfold expanded.
  rewrite (pluck_Ok_intro methods _ Hrs), (pluck_Ok_intro classes _ Hrs). simpl.
  rewrite !flatten_twoLevels. reflexivity.
Qed.

(** A descendant whose normalisation throws makes the parent throw: the
    [catch] turns the exception into null, and [m.methods] is then read on
    it. *)
Lemma normalizeNode_descendant_throws (node d : RawModuleNode) :
  In d (descendants node) ->
  throws (normalizeNode d) = true ->
  throws (normalizeNode node) = true.
Proof.
  intros Hin Hd. rewrite normalizeNode_eq.
  destruct (ownMethods node) as [ms|e]; [simpl|reflexivity].
  destruct (ownClasses node) as [cs|e]; [simpl|reflexivity].
  unfold expanded. rewrite (pluck_null methods normalizeNode _ _ Hin Hd).
  reflexivity.
Qed.

Lemma rawClasses_eq (node : RawModuleNode) :
  rawClasses node =
  match rn_classes node with
  | Some cs => cs
  | None => []
  end ++ List.concat (map rawClasses (descendants node)).
Proof.
  destruct node as [n ms cs [ds|]]; reflexivity.
Qed.

Lemma ownClasses_Forall2 (node : RawModuleNode) (cs : list NormalizedClass) :
  ownClasses node = Ok cs ->
  Forall2 (fun c nc => createClass c = Ok nc)
    (filter hasMethods match rn_classes node with Some l => l | None => [] end) cs.
Proof.
  unfold ownClasses. destruct (rn_classes node) as [l|]; intro H.
  - apply mapM_Ok_Forall2. exact H.
  - injection H as <-. constructor.
Qed.

(** ** The claims *)

(** C3, as amended.  A method descriptor with exactly one signature is
    normalised without exception; [name] is carried over and [textRaw]
    becomes [signature]; [returnType] is the string [return.type] of the
    signature when that string is present and not empty, and null when the
    signature has no [return], when [return] has no [type], and when the
    type is the empty string. *)
Theorem createMethod_one_signature (m : RawMethodDescriptor) (s : RawSignature) :
  rm_signatures m = [s] ->
  exists nm,
    createMethod m = Ok nm /\
    name nm = rm_name m /\
    signature nm = rm_textRaw m /\
    (forall r t, sig_return s = Some r -> return_type r = Some t ->
                 t <> EmptyString -> returnType nm = Some t) /\
    (forall r, sig_return s = Some r -> return_type r = Some EmptyString ->
               returnType nm = None) /\
    (forall r, sig_return s = Some r -> return_type r = None ->
               returnType nm = None) /\
    (sig_return s = None -> returnType nm = None).
Proof.
  intro Hs. unfold createMethod. rewrite Hs. simpl.
  eexists. split; [reflexivity|]. simpl. unfold returnValueOf.
  repeat split.
  - intros r t Hr Ht Hne. rewrite Hr, Ht. destruct t; [congruence | reflexivity].
  - intros r Hr Ht. rewrite Hr, Ht. reflexivity.
  - intros r Hr Ht. rewrite Hr, Ht. reflexivity.
  - intros Hr. rewrite Hr. reflexivity.
Qed.

Lemma createMethod_one_signature_witness :
  rm_signatures (methodNamed "isFile" [sig_returning "boolean"]) = [sig_returning "boolean"] /\
  exists nm,
    createMethod (methodNamed "isFile" [sig_returning "boolean"]) = Ok nm /\
    returnType nm = Some "boolean".
Proof.
  split; [reflexivity|].
  destruct (@createMethod_one_signature
              (methodNamed "isFile" [sig_returning "boolean"])
              (sig_returning "boolean") eq_refl)
    as (nm & Hnm & _ & _ & Hty & _).
  exists nm. split; [exact Hnm|].
  apply (Hty (mkRawReturn (Some "boolean")) "boolean"); [reflexivity | reflexivity | discriminate].
Defined.

(** C3, as stated, fails on a declared return type that is the empty
    string: the field is present, yet [returnType] is null and not that
    string. *)
Lemma createMethod_empty_type_is_null :
  rm_signatures method_emptyType = [sig_returning ""] /\
  sig_return (sig_returning "") = Some (mkRawReturn (Some "")) /\
  createMethod method_emptyType =
    Ok {| name := "f"; signature := "f()"; returnType := None |} /\
  ~ (exists nm, createMethod method_emptyType = Ok nm /\ returnType nm = Some ""%string).
Proof.
  repeat split.
  intros (nm & Hnm & Hty). vm_compute in Hnm. injection Hnm as <-.
  discriminate Hty.
Qed.

Lemma filter_concat {A : Type} (p : A -> bool) (ls : list (list A)) :
  filter p (List.concat ls) = List.concat (map (filter p) ls).
Proof.
  induction ls as [|l ls IH]; simpl.
  - reflexivity.
  - rewrite filter_app, IH. reflexivity.
Qed.

Lemma Forall2_concat {A B : Type} (R : A -> B -> Prop) (xs : list (list A)) (ys : list (list B)) :
  Forall2 (Forall2 R) xs ys -> Forall2 R (List.concat xs) (List.concat ys).
Proof.
  induction 1 as [|x y xs ys Hxy _ IH]; simpl.
  - constructor.
  - apply Forall2_app; assumption.
Qed.

(** C2, as amended.  After a successful normalisation the [classes] list
    holds, in order, one entry for each raw class descriptor met (those of
    the module, then those of its descendants) whose [methods] field is
    present, and none for the others; the entry is the normalised class.  A
    class whose [methods] list is present and empty is retained, with an
    empty list of methods. *)
Theorem classes_with_methods_field_retained (node : RawModuleNode) (r : NormalizedModule) :
  normalizeNode node = Ok r ->
  Forall2 (fun c nc => createClass c = Ok nc)
    (filter hasMethods (rawClasses node)) (classes r).
Proof.
  revert r. induction node as [node IH] using RawModuleNode_ind. intros r Hr.
  apply normalizeNode_inv in Hr.
  destruct Hr as (ms & cs & rs & _ & Hcs & Hrs & ->). simpl.
  rewrite rawClasses_eq, filter_app.
  apply Forall2_app; [apply ownClasses_Forall2; exact Hcs|].
  rewrite filter_concat, map_map.
  apply Forall2_concat.
  induction Hrs as [|d rd ds rs' Hd Hrest IHrs]; simpl.
  - constructor.
  - inversion IH as [|d' ds' IHd IHds]; subst.
    constructor; [apply IHd; exact Hd | apply IHrs; exact IHds].
Qed.

Lemma classes_with_methods_field_retained_witness :
  normalizeNode node_fs = Ok normalized_fs /\
  Forall2 (fun c nc => createClass c = Ok nc)
    (filter hasMethods (rawClasses node_fs)) (classes normalized_fs).
Proof.
  split; [reflexivity|].
  exact (@classes_with_methods_field_retained node_fs normalized_fs eq_refl).
Defined.

(** C2, as stated, fails on a class whose [methods] list is present and
    empty: the class declares no method and is in the output all the same. *)
Lemma class_without_methods_is_kept :
  rawClasses node_emptyClass = [class_noMethods] /\
  declaresMethod class_noMethods = false /\
  normalizeNode node_emptyClass =
    Ok {| mod_name := "m"; methods := [];
          classes := [ {| cls_methods := []; cls_name := "Empty" |} ] |} /\
  ~ (forall r, normalizeNode node_emptyClass = Ok r ->
               Forall2 (fun c nc => createClass c = Ok nc)
                 (filter declaresMethod (rawClasses node_emptyClass)) (classes r)).
Proof.
  repeat split.
  intro H. specialize (H _ eq_refl). inversion H.
Qed.

(** ** Method descriptors with a wrong number of signatures *)

Lemma throws_bind {A B : Type} (r : result A) (k : A -> result B) :
  throws r = true -> throws (bind r k) = true.
Proof.
  destruct r; simpl; [discriminate | reflexivity].
Qed.

Lemma createMethod_badSignatures (m : RawMethodDescriptor) :
  badSignatures m = true -> createMethod m = Throw AssertionError.
Proof.
  unfold badSignatures, createMethod, assert_strictEqual.
  destruct (Nat.eqb (List.length (rm_signatures m)) 1); [discriminate | reflexivity].
Qed.

Lemma mapM_createMethod_bad (ms : list RawMethodDescriptor) :
  existsb badSignatures ms = true -> throws (mapM createMethod ms) = true.
Proof.
  intro H. rewrite mapM_throws. apply existsb_exists.
  apply existsb_exists in H. destruct H as (m & Hin & Hbad).
  exists m. split; [exact Hin|].
  rewrite (createMethod_badSignatures _ Hbad). reflexivity.
Qed.

Lemma createClass_bad (c : RawClassDescriptor) :
  classHasBadMethod c = true -> hasMethods c = true /\ throws (createClass c) = true.
Proof.
  unfold classHasBadMethod, hasMethods, createClass.
  destruct (rc_methods c) as [ms|]; [|discriminate].
  intro H. split; [reflexivity|].
  apply throws_bind, mapM_createMethod_bad, H.
Qed.

Lemma hasBadMethod_eq (node : RawModuleNode) :
  hasBadMethod node =
  (match rn_methods node with
   | Some ms => existsb badSignatures ms
   | None => false
   end ||
   match rn_classes node with
   | Some cs => existsb classHasBadMethod cs
   | None => false
   end ||
   existsb hasBadMethod (descendants node))%bool.
Proof.
  destruct node as [n ms cs [ds|]]; reflexivity.
Qed.

(** Normalisation throws as soon as such a descriptor is anywhere in the
    tree; below a descendant the exception is caught and it is the read of
    [methods] on null that throws one level up, again and again up to the
    root. *)
Lemma normalizeNode_hasBadMethod (node : RawModuleNode) :
  hasBadMethod node = true -> throws (normalizeNode node) = true.
Proof.
  induction node as [node IH] using RawModuleNode_ind.
  rewrite hasBadMethod_eq. intro H.
  apply orb_true_iff in H. destruct H as [H|H]; [apply orb_true_iff in H; destruct H as [H|H]|].
  - rewrite normalizeNode_eq. apply throws_bind.
    unfold ownMethods. destruct (rn_methods node) as [ms|]; [|discriminate H].
    apply mapM_createMethod_bad, H.
  - rewrite normalizeNode_eq.
    destruct (ownMethods node) as [ms|e]; [cbn [bind] | reflexivity].
    apply throws_bind.
    unfold ownClasses. destruct (rn_classes node) as [cs|]; [|discriminate H].
    rewrite mapM_throws. apply existsb_exists.
    apply existsb_exists in H. destruct H as (c & Hin & Hbad).
    apply createClass_bad in Hbad. destruct Hbad as [Hhas Hthrow].
    exists c. split; [|exact Hthrow].
    apply filter_In. split; assumption.
  - apply existsb_exists in H. destruct H as (d & Hin & Hbad).
    apply (normalizeNode_descendant_throws node d Hin).
    rewrite Forall_forall in IH. apply IH; assumption.
Qed.

(** ** The entry point and the two loading loops *)

Section WorldFacts.
Variable mkdir : string -> result unit.
Variable getModuleDefinition : string -> string -> result RawDocument.
Variable fetchModuleList : string -> result (list string).

(** The recursive call, which passes the descendant. *)
Lemma createModuleForVersion_given (moduleName majorVersion : string)
    (node : RawModuleNode) (r : NormalizedModule) :
  createModuleForVersion getModuleDefinition moduleName majorVersion (Some node) = Ok (Some r) <->
  normalizeNode node = Ok r.
Proof.
  simpl. destruct (normalizeNode node) as [r'|e]; simpl; split; intro H;
    congruence.
Qed.

(** The first call, which downloads the document. *)
Lemma createModuleForVersion_top_inv (moduleName majorVersion : string)
    (r : NormalizedModule) :
  createModuleForVersion getModuleDefinition moduleName majorVersion None = Ok (Some r) ->
  exists doc node,
    getModuleDefinition moduleName majorVersion = Ok doc /\
    doc_modules doc = Some [node] /\
    normalizeNode node = Ok r.
Proof.
  simpl. intro H. bind_inv H. rename a into doc.
  destruct (doc_modules doc) as [top|] eqn:Htop; [|discriminate H].
  destruct top as [|node [|node' top]]; simpl in H; try discriminate H.
  bind_inv H. injection H as <-.
  exists doc, node. auto.
Qed.

Lemma createModuleForVersion_top_throws (moduleName majorVersion : string)
    (doc : RawDocument) (top : list RawModuleNode) :
  getModuleDefinition moduleName majorVersion = Ok doc ->
  doc_modules doc = Some top ->
  List.length top <> 1 ->
  createModuleForVersion getModuleDefinition moduleName majorVersion None = Throw AssertionError.
Proof.
  intros Hdoc Htop Hlen. simpl. rewrite Hdoc. simpl. rewrite Htop.
  unfold assert_strictEqual.
  destruct (Nat.eqb_spec (List.length top) 1) as [Heq|_]; [contradiction|].
  reflexivity.
Qed.

Lemma collectModules_app (majorVersion : string) (pre post : list string) :
  collectModules getModuleDefinition majorVersion (pre ++ post) =
  (a <- collectModules getModuleDefinition majorVersion pre ;;
   b <- collectModules getModuleDefinition majorVersion post ;;
   Ok (a ++ b)).
Proof.
  induction pre as [|n pre IH].
  - simpl. destruct (collectModules getModuleDefinition majorVersion post); reflexivity.
  - change ((n :: pre) ++ post) with (n :: (pre ++ post)).
    cbn [collectModules].
    destruct (createModuleForVersion getModuleDefinition n majorVersion None) as [m|e];
      [|reflexivity].
    cbn [bind]. rewrite IH.
    destruct (collectModules getModuleDefinition majorVersion pre) as [a|e]; [|reflexivity].
    cbn [bind].
    destruct (collectModules getModuleDefinition majorVersion post) as [b|e]; [|reflexivity].
    cbn [bind]. destruct m; reflexivity.
Qed.

(** The set built from the results of the calls, when none throws. *)
Lemma collectModules_of_results (majorVersion : string) (moduleList : list string)
    (results : list (option NormalizedModule)) :
  Forall2 (fun n o => createModuleForVersion getModuleDefinition n majorVersion None = Ok o)
    moduleList results ->
  collectModules getModuleDefinition majorVersion moduleList = Ok (pushed results).
Proof.
  induction 1 as [|n o rest results Hn _ IH].
  - reflexivity.
  - cbn [collectModules]. rewrite Hn. cbn [bind]. rewrite IH. cbn [bind].
    destruct o; reflexivity.
Qed.

(** An exception for one module of the list leaves the loop. *)
Lemma collectModules_throws (majorVersion moduleName : string) (moduleList : list string) :
  In moduleName moduleList ->
  throws (createModuleForVersion getModuleDefinition moduleName majorVersion None) = true ->
  throws (collectModules getModuleDefinition majorVersion moduleList) = true.
Proof.
  induction moduleList as [|n rest IH]; intros Hin Hthrow; [destruct Hin|].
  cbn [collectModules].
  destruct (createModuleForVersion getModuleDefinition n majorVersion None) as [m|e] eqn:Hn;
    [|reflexivity].
  cbn [bind].
  destruct Hin as [->|Hin].
  - rewrite Hn in Hthrow. discriminate Hthrow.
  - specialize (IH Hin Hthrow).
    destruct (collectModules getModuleDefinition majorVersion rest);
      [discriminate IH | reflexivity].
Qed.

Lemma loadVersion_throws (majorVersion moduleName : string) (moduleList : list string) :
  fetchModuleList majorVersion = Ok moduleList ->
  In moduleName moduleList ->
  throws (createModuleForVersion getModuleDefinition moduleName majorVersion None) = true ->
  throws (loadVersion getModuleDefinition fetchModuleList majorVersion) = true.
Proof.
  intros Hlist Hin Hthrow. unfold loadVersion. rewrite Hlist. simpl.
  eapply collectModules_throws; eassumption.
Qed.

(** An exception while either version is loaded ends the run with code 1
    and nothing printed. *)
Lemma main_load_throws (olderVersion newerVersion : string) :
  throws (loadVersion getModuleDefinition fetchModuleList olderVersion) = true \/
  throws (loadVersion getModuleDefinition fetchModuleList newerVersion) = true ->
  main mkdir getModuleDefinition fetchModuleList olderVersion newerVersion
    = {| stdout := []; exitCode := 1 |}.
Proof.
  unfold main, loadBoth. intro H.
  destruct (mkdir ("./cache/" ++ olderVersion)%string); [cbn [bind] | reflexivity].
  destruct (mkdir ("./cache/" ++ newerVersion)%string); [cbn [bind] | reflexivity].
  destruct (loadVersion _ _ olderVersion); [cbn [bind] | reflexivity].
  destruct (loadVersion _ _ newerVersion); [cbn [bind] | reflexivity].
  destruct H as [H|H]; discriminate H.
Qed.
End WorldFacts.

Section Loading.
Variable mkdir : string -> result unit.
Variable getModuleDefinition : string -> string -> result RawDocument.
Variable fetchModuleList : string -> result (list string).

(** C9.  Whenever [createModuleForVersion] returns a module, for the node it
    was given or for the single node of the document it downloaded, the
    [methods] list of the result is the module's own normalised methods
    followed by the [methods] lists that the recursive calls return for the
    descendants, in the order of the [modules] list, and likewise for
    [classes]; each descendant's list is built the same way by its own
    call. *)
Theorem members_own_then_descendants (moduleName majorVersion : string)
    (moduleMetadata : option RawModuleNode) (r : NormalizedModule) :
  createModuleForVersion getModuleDefinition moduleName majorVersion moduleMetadata
    = Ok (Some r) ->
  exists node ms cs rs,
    (moduleMetadata = Some node \/
     moduleMetadata = None /\
     exists doc, getModuleDefinition moduleName majorVersion = Ok doc /\
                 doc_modules doc = Some [node]) /\
    ownMethods node = Ok ms /\
    ownClasses node = Ok cs /\
    Forall2 (fun d rd =>
               createModuleForVersion getModuleDefinition (rn_name d) majorVersion (Some d)
                 = Ok (Some rd))
      (descendants node) rs /\
    mod_name r = rn_name node /\
    methods r = ms ++ List.concat (map methods rs) /\
    classes r = cs ++ List.concat (map classes rs).
Proof.
  intro H.
  assert (Hnode : exists node,
             (moduleMetadata = Some node \/
              moduleMetadata = None /\
              exists doc, getModuleDefinition moduleName majorVersion = Ok doc /\
                          doc_modules doc = Some [node]) /\
             normalizeNode node = Ok r).
  { destruct moduleMetadata as [given|].
    - exists given. split; [left; reflexivity|].
      apply (createModuleForVersion_given getModuleDefinition moduleName majorVersion).
      exact H.
    - apply createModuleForVersion_top_inv in H.
      destruct H as (doc & node & Hdoc & Htop & Hr).
      exists node. split; [right; split; [reflexivity | exists doc; auto] | exact Hr]. }
  destruct Hnode as (node & Hfrom & Hr).
  apply normalizeNode_inv in Hr. destruct Hr as (ms & cs & rs & Hms & Hcs & Hrs & ->).
  exists node, ms, cs, rs. repeat split; try assumption.
  clear -Hrs. induction Hrs as [|d rd ds rs Hd _ IH]; constructor.
  - apply createModuleForVersion_given. exact Hd.
  - exact IH.
Qed.

(** C7.  A first call, which downloads the document, throws when the
    [modules] list of the document has not exactly one entry, and a run
    that loads such a document ends with code 1 and nothing printed.  A
    recursive call, which is given the descendant, has no such condition:
    whatever the number of its own descendants, it returns a module as soon
    as its members and each of these descendants are normalised. *)
Theorem one_top_module_only_at_first_call :
  (forall moduleName majorVersion doc top,
      getModuleDefinition moduleName majorVersion = Ok doc ->
      doc_modules doc = Some top ->
      List.length top <> 1 ->
      createModuleForVersion getModuleDefinition moduleName majorVersion None
        = Throw AssertionError /\
      forall olderVersion newerVersion moduleList,
        majorVersion = olderVersion \/ majorVersion = newerVersion ->
        fetchModuleList majorVersion = Ok moduleList ->
        In moduleName moduleList ->
        main mkdir getModuleDefinition fetchModuleList olderVersion newerVersion
          = {| stdout := []; exitCode := 1 |}) /\
  (forall node majorVersion ms cs rs,
      ownMethods node = Ok ms ->
      ownClasses node = Ok cs ->
      Forall2 (fun d rd =>
                 createModuleForVersion getModuleDefinition (rn_name d) majorVersion (Some d)
                   = Ok (Some rd))
        (descendants node) rs ->
      createModuleForVersion getModuleDefinition (rn_name node) majorVersion (Some node)
        = Ok (Some {| mod_name := rn_name node;
                      methods := ms ++ List.concat (map methods rs);
                      classes := cs ++ List.concat (map classes rs) |})).
Proof.
  split.
  - intros moduleName majorVersion doc top Hdoc Htop Hlen.
    pose proof (createModuleForVersion_top_throws _ _ _ Hdoc Htop Hlen) as Hthrow.
    split; [exact Hthrow|].
    intros olderVersion newerVersion moduleList Hversion Hlist Hin.
    apply main_load_throws.
    assert (Hload : throws (loadVersion getModuleDefinition fetchModuleList majorVersion) = true).
    { eapply loadVersion_throws; [exact Hlist | exact Hin |].
      rewrite Hthrow. reflexivity. }
    destruct Hversion as [<-|<-]; [left | right]; exact Hload.
  - intros node majorVersion ms cs rs Hms Hcs Hrs.
    apply createModuleForVersion_given.
    apply normalizeNode_intro; try assumption.
    clear -Hrs. induction Hrs as [|d rd ds rs Hd _ IH]; constructor.
    + apply createModuleForVersion_given in Hd. exact Hd.
    + exact IH.
Qed.

(** C8.  When the downloaded document has no [modules] field, the first
    call returns null without throwing, and the loading loop goes on with
    the modules that follow.  The set it builds holds the modules returned
    for the names before that one, then the modules returned for the names
    after it, and nothing for the module itself; and whatever the other
    names do, the loop ends as it ends on the list without that name. *)
Theorem document_without_modules_is_skipped (moduleName majorVersion : string)
    (doc : RawDocument) :
  getModuleDefinition moduleName majorVersion = Ok doc ->
  doc_modules doc = None ->
  createModuleForVersion getModuleDefinition moduleName majorVersion None = Ok None /\
  (forall pre post before after,
      Forall2 (fun n o =>
                 createModuleForVersion getModuleDefinition n majorVersion None = Ok o)
        pre before ->
      Forall2 (fun n o =>
                 createModuleForVersion getModuleDefinition n majorVersion None = Ok o)
        post after ->
      collectModules getModuleDefinition majorVersion (pre ++ moduleName :: post)
        = Ok (pushed before ++ pushed after)) /\
  (forall pre post,
      collectModules getModuleDefinition majorVersion (pre ++ moduleName :: post) =
      collectModules getModuleDefinition majorVersion (pre ++ post)).
Proof.
  intros Hdoc Hnone.
  assert (Hnull : createModuleForVersion getModuleDefinition moduleName majorVersion None
                  = Ok None).
  { simpl. rewrite Hdoc. simpl. rewrite Hnone. reflexivity. }
  split; [exact Hnull|]. split.
  - intros pre post before after Hpre Hpost.
    rewrite collectModules_app.
    rewrite (collectModules_of_results getModuleDefinition majorVersion Hpre).
    cbn [bind collectModules].
    rewrite Hnull. cbn [bind].
    rewrite (collectModules_of_results getModuleDefinition majorVersion Hpost). reflexivity.
  - intros pre post. rewrite !collectModules_app.
    cbn [collectModules]. rewrite Hnull. cbn [bind].
    destruct (collectModules getModuleDefinition majorVersion pre) as [a|e]; [|reflexivity].
    cbn [bind].
    destruct (collectModules getModuleDefinition majorVersion post) as [b|e]; reflexivity.
Qed.

Lemma createModuleForVersion_docHasBadMethod (moduleName majorVersion : string)
    (doc : RawDocument) :
  getModuleDefinition moduleName majorVersion = Ok doc ->
  docHasBadMethod doc = true ->
  throws (createModuleForVersion getModuleDefinition moduleName majorVersion None) = true.
Proof.
  intros Hdoc Hbad. simpl. rewrite Hdoc. cbn [bind].
  unfold docHasBadMethod in Hbad.
  destruct (doc_modules doc) as [top|]; [|discriminate Hbad].
  destruct top as [|node [|node' top]]; try reflexivity.
  simpl in Hbad. rewrite orb_false_r in Hbad.
  simpl. apply throws_bind, normalizeNode_hasBadMethod, Hbad.
Qed.

(** C4.  A method descriptor whose [signatures] list has not exactly one
    element makes [createMethod] throw; a node that has such a descriptor
    among its own methods, the methods of a class with a [methods] field, or
    anywhere in a descendant, is normalised with an exception; so is the
    document that holds the node; and a run that loads such a document for
    either version ends with code 1 and nothing printed. *)
Theorem wrong_signature_count_is_fatal :
  (forall m, List.length (rm_signatures m) <> 1 -> createMethod m = Throw AssertionError) /\
  (forall node, hasBadMethod node = true -> exists e, normalizeNode node = Throw e) /\
  (forall moduleName majorVersion doc,
      getModuleDefinition moduleName majorVersion = Ok doc ->
      docHasBadMethod doc = true ->
      (exists e, createModuleForVersion getModuleDefinition moduleName majorVersion None
                 = Throw e) /\
      forall olderVersion newerVersion moduleList,
        majorVersion = olderVersion \/ majorVersion = newerVersion ->
        fetchModuleList majorVersion = Ok moduleList ->
        In moduleName moduleList ->
        main mkdir getModuleDefinition fetchModuleList olderVersion newerVersion
          = {| stdout := []; exitCode := 1 |}).
Proof.
  split; [|split].
  - intros m Hlen. apply createMethod_badSignatures. unfold badSignatures.
    destruct (Nat.eqb_spec (List.length (rm_signatures m)) 1); [contradiction | reflexivity].
  - intros node Hbad. apply throws_true, normalizeNode_hasBadMethod, Hbad.
  - intros moduleName majorVersion doc Hdoc Hbad.
    pose proof (createModuleForVersion_docHasBadMethod Hdoc Hbad) as Hthrow.
    split; [apply throws_true; exact Hthrow|].
    intros olderVersion newerVersion moduleList Hversion Hlist Hin.
    apply main_load_throws.
    assert (Hload : throws (loadVersion getModuleDefinition fetchModuleList majorVersion) = true).
    { eapply loadVersion_throws; eassumption. }
    destruct Hversion as [<-|<-]; [left | right]; exact Hload.
Qed.

End Loading.

Lemma members_own_then_descendants_witness :
  createModuleForVersion (siteOf docs10 docs12) "fs" "12" None = Ok (Some normalized_fs) /\
  exists node ms cs rs,
    ownMethods node = Ok ms /\
    ownClasses node = Ok cs /\
    methods normalized_fs = ms ++ List.concat (map methods rs) /\
    classes normalized_fs = cs ++ List.concat (map classes rs).
Proof.
  split; [reflexivity|].
  destruct (@members_own_then_descendants (siteOf docs10 docs12) "fs" "12" None
              normalized_fs eq_refl)
    as (node & ms & cs & rs & _ & Hms & Hcs & _ & _ & Hm & Hc).
  exists node, ms, cs, rs. auto.
Defined.

Lemma one_top_module_only_at_first_call_witness :
  (createModuleForVersion (siteOf docs10 docs12_twoTop) "two" "12" None
     = Throw AssertionError /\
   main cacheReady (siteOf docs10 docs12_twoTop) (synopsisOf docs10 docs12_twoTop) "10" "12"
     = {| stdout := []; exitCode := 1 |}) /\
  createModuleForVersion (siteOf docs10 docs12_twoTop) "none" "12" None
    = Throw AssertionError /\
  createModuleForVersion (siteOf docs10 docs12_twoTop) "constants" "12"
    (Some (mkRawModule "constants" None None
             (Some [leafModule "a" []; leafModule "b" []; leafModule "c" []])))
  = Ok (Some (moduleOf "constants" [])).
Proof.
  destruct (one_top_module_only_at_first_call cacheReady
              (siteOf docs10 docs12_twoTop) (synopsisOf docs10 docs12_twoTop))
    as [Hfirst Hrec].
  split; [|split].
  - destruct (Hfirst "two" "12" doc_twoTop
                [leafModule "a" []; leafModule "b" []] eq_refl eq_refl) as [Hthrow Hrun].
    + simpl. discriminate.
    + split; [exact Hthrow|].
      apply (Hrun "10" "12" ["two"; "none"; "fs"]); [right; reflexivity | reflexivity |].
      simpl. left. reflexivity.
  - apply (Hfirst "none" "12" doc_noTop [] eq_refl eq_refl). simpl. discriminate.
  - apply (Hrec (mkRawModule "constants" None None
                   (Some [leafModule "a" []; leafModule "b" []; leafModule "c" []]))
             "12" [] [] [moduleOf "a" []; moduleOf "b" []; moduleOf "c" []]);
      [reflexivity | reflexivity |].
    repeat constructor.
Defined.

Lemma document_without_modules_is_skipped_witness :
  createModuleForVersion (siteOf docs10 docs12) "addons" "12" None = Ok None /\
  collectModules (siteOf docs10 docs12) "12" ["fs"; "addons"; "fs"]
    = Ok [normalized_fs; normalized_fs] /\
  collectModules (siteOf docs10 docs12) "10" ["addons"; "fs"]
    = Ok [moduleOf "fs" [plainMethod "readFile"]].
Proof.
  destruct (@document_without_modules_is_skipped (siteOf docs10 docs12)
              "addons" "12" doc_addons eq_refl eq_refl) as (Hnull & Hset & _).
  destruct (@document_without_modules_is_skipped (siteOf docs10 docs12)
              "addons" "10" doc_addons eq_refl eq_refl) as (_ & Hset10 & _).
  split; [exact Hnull|]. split.
  - apply (Hset ["fs"] ["fs"] [Some normalized_fs] [Some normalized_fs]);
      repeat constructor.
  - apply (Hset10 [] ["fs"] [] [Some (moduleOf "fs" [plainMethod "readFile"])]);
      repeat constructor.
Defined.

Lemma wrong_signature_count_is_fatal_witness :
  createMethod (methodNamed "g" []) = Throw AssertionError /\
  (exists e, normalizeNode node_parentOfBroken = Throw e) /\
  (exists e, createModuleForVersion (siteOf docs10 docs12_broken) "broken" "12" None
             = Throw e) /\
  main cacheReady (siteOf docs10 docs12_broken) (synopsisOf docs10 docs12_broken) "10" "12"
    = {| stdout := []; exitCode := 1 |}.
Proof.
  destruct (wrong_signature_count_is_fatal cacheReady
              (siteOf docs10 docs12_broken) (synopsisOf docs10 docs12_broken))
    as (Hmethod & Hnode & Hdoc).
  split; [|split].
  - apply Hmethod. simpl. discriminate.
  - apply Hnode. reflexivity.
  - destruct (Hdoc "broken" "12" doc_broken eq_refl eq_refl) as [Hthrow Hrun].
    split; [exact Hthrow|].
    apply (Hrun "10" "12" ["fs"; "broken"]); [right; reflexivity | reflexivity |].
    simpl. right. left. reflexivity.
Defined.

(** C1 fails on [node_parentOfBroken].  The normalisation of the second
    descendant throws and the exception is caught, null standing for the
    descendant; the parent then reads [methods] on that null and throws,
    where the claim has it return with its own method and the method of the
    first descendant. *)
Theorem failed_descendant_aborts_parent :
  normalizeNode node_brokenChild = Throw AssertionError /\
  expanded node_parentOfBroken = [Some (moduleOf "sound" [plainMethod "h"]); None] /\
  ownMethods node_parentOfBroken = Ok [plainMethod "own"] /\
  normalizeNode node_parentOfBroken = Throw TypeError /\
  normalizeNode node_parentOfBroken
    <> Ok (moduleOf "parent" [plainMethod "own"; plainMethod "h"]).
Proof.
  repeat split. discriminate.
Qed.

(** ** [pad] and the report *)

Lemma string_length_app (s1 s2 : string) :
  String.length (s1 ++ s2)%string = String.length s1 + String.length s2.
Proof.
  induction s1 as [|c s1 IH]; simpl; [reflexivity | rewrite IH; reflexivity].
Qed.

Lemma spaces_S (n : nat) : spaces (S n) = String " " (spaces n).
Proof.
  unfold spaces. destruct n; reflexivity.
Qed.

Lemma spaces_chars (n : nat) : list_ascii_of_string (spaces n) = repeat " "%char n.
Proof.
  induction n as [|n IH]; [reflexivity|].
  rewrite spaces_S. simpl. rewrite IH. reflexivity.
Qed.

Lemma spaces_length (n : nat) : String.length (spaces n) = n.
Proof.
  induction n as [|n IH]; [reflexivity|].
  rewrite spaces_S. simpl. rewrite IH. reflexivity.
Qed.

Lemma pad_long (str : string) :
  24 < String.length str -> pad str defaultPaddingLength = Throw RangeError.
Proof.
  intro H. unfold pad, defaultPaddingLength.
  destruct (Z.ltb_spec (24 - Z.of_nat (String.length str)) 0); [reflexivity | lia].
Qed.

Lemma pad_short (str : string) :
  String.length str <= 24 ->
  pad str defaultPaddingLength = Ok (str ++ spaces (24 - String.length str))%string.
Proof.
  intro H. unfold pad, defaultPaddingLength.
  destruct (Z.ltb_spec (24 - Z.of_nat (String.length str)) 0); [lia|].
  do 3 f_equal. lia.
Qed.

Lemma includes_In (names : list string) (x : string) :
  includes names x = true <-> In x names.
Proof.
  unfold includes. rewrite existsb_exists. split.
  - intros (y & Hin & Heq). apply String.eqb_eq in Heq. subst. exact Hin.
  - intro Hin. exists x. split; [exact Hin | apply String.eqb_refl].
Qed.

(** The methods reported are those of the newer module whose name is not a
    method name of the older one, in the order of the newer module. *)
Lemma newMethodsOf_spec (oldModule newModule : NormalizedModule) (m : NormalizedMethod) :
  In m (newMethodsOf oldModule newModule) <->
  In m (methods newModule) /\ ~ In (name m) (map name (methods oldModule)).
Proof.
  unfold newMethodsOf. rewrite filter_In, negb_true_iff.
  split; intros [Hin H]; (split; [exact Hin|]).
  - intro Hname. apply includes_In in Hname. congruence.
  - destruct (includes (map name (methods oldModule)) (name m)) eqn:E; [|reflexivity].
    apply includes_In in E. contradiction.
Qed.

(** The newer module found is the first one with the name of the older. *)
Lemma findModule_first (newModules : list NormalizedModule)
    (oldModule newModule : NormalizedModule) :
  findModule newModules oldModule = Some newModule <->
  exists before after,
    newModules = before ++ newModule :: after /\
    mod_name newModule = mod_name oldModule /\
    forall m, In m before -> mod_name m <> mod_name oldModule.
Proof.
  unfold findModule. induction newModules as [|n rest IH]; simpl.
  - split; [discriminate|]. intros (before & after & H & _). destruct before; discriminate H.
  - destruct (String.eqb_spec (mod_name n) (mod_name oldModule)) as [Heq|Hne].
    + split.
      * intro H. injection H as <-. exists [], rest.
        split; [reflexivity|]. split; [exact Heq|]. intros m Hin. destruct Hin.
      * intros (before & after & H & Hname & Hbefore).
        destruct before as [|b before]; simpl in H; injection H as Hb Hrest.
        -- rewrite Hb. reflexivity.
        -- exfalso. apply (Hbefore b); [left; reflexivity | rewrite <- Hb; exact Heq].
    + rewrite IH. split; intros (before & after & H & Hname & Hbefore).
      * exists (n :: before), after.
        split; [rewrite H; reflexivity|]. split; [exact Hname|].
        intros m [Hm|Hin]; [rewrite <- Hm; exact Hne | apply Hbefore; exact Hin].
      * destruct before as [|b before]; simpl in H; injection H as Hb Hrest.
        -- rewrite Hb in Hne. contradiction.
        -- exists before, after.
           split; [exact Hrest|]. split; [exact Hname|].
           intros m Hin. apply Hbefore. right. exact Hin.
Qed.

(** The block of a module whose name fits the column. *)
Lemma diffModule_short_name (newModules : list NormalizedModule)
    (oldModule newModule : NormalizedModule) :
  findModule newModules oldModule = Some newModule ->
  String.length (mod_name newModule) <= 24 ->
  diffModule newModules oldModule =
  Ok match newMethodsOf oldModule newModule with
     | [] => []
     | _ :: _ =>
         ((mod_name newModule ++ spaces (24 - String.length (mod_name newModule))) ++ " "
            ++ showNat (List.length (newMethodsOf oldModule newModule)) ++ " new")%string
           :: map methodLine (newMethodsOf oldModule newModule)
     end.
Proof.
  intros Hfind Hlen. unfold diffModule. rewrite Hfind.
  destruct (newMethodsOf oldModule newModule) as [|m ms] eqn:E; [reflexivity|].
  cbn [List.length Nat.eqb]. rewrite (pad_short _ Hlen). reflexivity.
Qed.

Lemma diffModule_long_name (newModules : list NormalizedModule)
    (oldModule newModule : NormalizedModule) :
  findModule newModules oldModule = Some newModule ->
  24 < String.length (mod_name newModule) ->
  newMethodsOf oldModule newModule <> [] ->
  diffModule newModules oldModule = Throw RangeError.
Proof.
  intros Hfind Hlen Hnew. unfold diffModule. rewrite Hfind.
  destruct (newMethodsOf oldModule newModule) as [|m ms]; [contradiction|].
  cbn [List.length Nat.eqb]. rewrite (pad_long _ Hlen). reflexivity.
Qed.

Lemma exitCode_diffLoop (newModules oldModules : list NormalizedModule) :
  exitCode (diffLoop newModules oldModules) = 0 \/
  exitCode (diffLoop newModules oldModules) = 1.
Proof.
  induction oldModules as [|o rest IH]; simpl; [left; reflexivity|].
  destruct (diffModule newModules o); simpl; [exact IH | right; reflexivity].
Qed.

Lemma diffLoop_app (newModules pre post : list NormalizedModule) :
  diffLoop newModules (pre ++ post) =
  match exitCode (diffLoop newModules pre) with
  | 0 => {| stdout := stdout (diffLoop newModules pre) ++ stdout (diffLoop newModules post);
            exitCode := exitCode (diffLoop newModules post) |}
  | S _ => diffLoop newModules pre
  end.
Proof.
  induction pre as [|o pre IH]; simpl.
  - destruct (diffLoop newModules post); reflexivity.
  - destruct (diffModule newModules o) as [block|e]; [|reflexivity].
    rewrite IH. simpl.
    destruct (exitCode (diffLoop newModules pre)) eqn:E; simpl.
    + rewrite app_assoc. reflexivity.
    + rewrite E. reflexivity.
Qed.

(** An exception in the callback ends the run with code 1 after what the
    modules before had printed. *)
Lemma diffLoop_throw (newModules pre rest : list NormalizedModule)
    (oldModule : NormalizedModule) :
  throws (diffModule newModules oldModule) = true ->
  exitCode (diffLoop newModules (pre ++ oldModule :: rest)) = 1 /\
  stdout (diffLoop newModules (pre ++ oldModule :: rest)) = stdout (diffLoop newModules pre).
Proof.
  intro H. rewrite diffLoop_app.
  assert (Hhere : diffLoop newModules (oldModule :: rest) = {| stdout := []; exitCode := 1 |}).
  { simpl. destruct (diffModule newModules oldModule); [discriminate H | reflexivity]. }
  rewrite Hhere.
  destruct (exitCode_diffLoop newModules pre) as [E|E]; rewrite E; simpl.
  - rewrite app_nil_r. auto.
  - auto.
Qed.

Lemma findModule_without (n1 n2 : list NormalizedModule) (m oldModule : NormalizedModule) :
  mod_name oldModule <> mod_name m ->
  findModule (n1 ++ m :: n2) oldModule = findModule (n1 ++ n2) oldModule.
Proof.
  intro Hne. unfold findModule. induction n1 as [|n n1 IH]; simpl.
  - destruct (String.eqb_spec (mod_name m) (mod_name oldModule)) as [Heq|_];
      [congruence | reflexivity].
  - rewrite IH. reflexivity.
Qed.

Lemma diffModule_without (n1 n2 : list NormalizedModule) (m oldModule : NormalizedModule) :
  mod_name oldModule <> mod_name m ->
  diffModule (n1 ++ m :: n2) oldModule = diffModule (n1 ++ n2) oldModule.
Proof.
  intro Hne. unfold diffModule. rewrite (@findModule_without n1 n2 m oldModule Hne). reflexivity.
Qed.

(** What is printed is made of the blocks of the older modules, one after
    the other, up to the first module whose callback throws. *)
Lemma diffLoop_blocks (newModules oldModules : list NormalizedModule) :
  exists blocks,
    Forall2 (fun o block => diffModule newModules o = Ok block)
      (firstn (List.length blocks) oldModules) blocks /\
    stdout (diffLoop newModules oldModules) = List.concat blocks.
Proof.
  induction oldModules as [|o rest (blocks & Hblocks & Hout)]; simpl.
  - exists []. split; [constructor | reflexivity].
  - destruct (diffModule newModules o) as [block|e] eqn:E; simpl.
    + exists (block :: blocks). split; [constructor; assumption|].
      simpl. rewrite Hout. reflexivity.
    + exists []. split; [constructor | reflexivity].
Qed.

(** C6.  A module of the newer set whose name no module of the older set
    has is without effect on the report: the lines printed and the exit code
    are those of the report made without it, so that it brings neither a
    line nor an exception; and every line printed belongs to the block of a
    module of the older set. *)
Theorem newer_only_module_is_ignored (older n1 n2 : list NormalizedModule)
    (m : NormalizedModule) :
  (forall o, In o older -> mod_name o <> mod_name m) ->
  diffLoop (n1 ++ m :: n2) older = diffLoop (n1 ++ n2) older /\
  exists blocks,
    Forall2 (fun o block => diffModule (n1 ++ n2) o = Ok block)
      (firstn (List.length blocks) older) blocks /\
    stdout (diffLoop (n1 ++ m :: n2) older) = List.concat blocks.
Proof.
  intro Hnames.
  assert (Hsame : diffLoop (n1 ++ m :: n2) older = diffLoop (n1 ++ n2) older).
  { induction older as [|o rest IH]; [reflexivity|].
    simpl. rewrite diffModule_without by (apply Hnames; left; reflexivity).
    rewrite IH by (intros o' Hin; apply Hnames; right; exact Hin).
    reflexivity. }
  split; [exact Hsame|].
  rewrite Hsame. apply diffLoop_blocks.
Qed.

Lemma newer_only_module_is_ignored_witness :
  diffLoop [module_B_new; module_A_new] [module_A_old] =
  diffLoop [module_A_new] [module_A_old] /\
  diffLoop [module_B_new; module_A_new] [module_A_old] =
  {| stdout := ["A                        2 new"; "- y: string"; "- z: null"];
     exitCode := 0 |}.
Proof.
  split; [|reflexivity].
  apply (@newer_only_module_is_ignored [module_A_old] [] [module_A_new] module_B_new).
  intros o [<-|[]]. discriminate.
Defined.

(** C10.  For a string of more than 24 characters [pad] throws, and the
    callback of the report throws with it when the module found has such a
    name and new methods: the run ends there with code 1, having printed
    only what the modules before had printed.  For a string of at most 24
    characters [pad] returns the string followed by as many spaces as bring
    it to 24 characters, and the header line is that padded name followed
    by a space, the number of new methods and the word new. *)
Theorem pad_fixed_width :
  (forall str, 24 < String.length str -> pad str defaultPaddingLength = Throw RangeError) /\
  (forall newModules oldModule newModule pre rest,
      findModule newModules oldModule = Some newModule ->
      24 < String.length (mod_name newModule) ->
      newMethodsOf oldModule newModule <> [] ->
      diffModule newModules oldModule = Throw RangeError /\
      exitCode (diffLoop newModules (pre ++ oldModule :: rest)) = 1 /\
      stdout (diffLoop newModules (pre ++ oldModule :: rest))
        = stdout (diffLoop newModules pre)) /\
  (forall str, String.length str <= 24 ->
      exists padding,
        pad str defaultPaddingLength = Ok (str ++ padding)%string /\
        String.length (str ++ padding)%string = 24 /\
        list_ascii_of_string padding = repeat " "%char (24 - String.length str)) /\
  (forall newModules oldModule newModule,
      findModule newModules oldModule = Some newModule ->
      String.length (mod_name newModule) <= 24 ->
      newMethodsOf oldModule newModule <> [] ->
      exists padded,
        pad (mod_name newModule) defaultPaddingLength = Ok padded /\
        diffModule newModules oldModule =
        Ok ((padded ++ " " ++ showNat (List.length (newMethodsOf oldModule newModule))
               ++ " new")%string
              :: map methodLine (newMethodsOf oldModule newModule))).
Proof.
  split; [exact pad_long|]. split; [|split].
  - intros newModules oldModule newModule pre rest Hfind Hlen Hnew.
    pose proof (diffModule_long_name _ _ Hfind Hlen Hnew) as Hthrow.
    split; [exact Hthrow|].
    apply diffLoop_throw. rewrite Hthrow. reflexivity.
  - intros str Hlen. exists (spaces (24 - String.length str)).
    split; [apply pad_short; exact Hlen|].
    split; [|apply spaces_chars].
    rewrite string_length_app, spaces_length. lia.
  - intros newModules oldModule newModule Hfind Hlen Hnew.
    eexists. split; [apply pad_short; exact Hlen|].
    rewrite (diffModule_short_name _ _ Hfind Hlen).
    destruct (newMethodsOf oldModule newModule); [contradiction | reflexivity].
Qed.

Lemma pad_fixed_width_witness :
  pad longName defaultPaddingLength = Throw RangeError /\
  (diffModule [module_A_new; module_long_new] module_long_old = Throw RangeError /\
   diffLoop [module_A_new; module_long_new] [module_A_old; module_long_old; module_A_old]
     = {| stdout := ["A                        2 new"; "- y: string"; "- z: null"];
          exitCode := 1 |}) /\
  pad "fs" defaultPaddingLength = Ok "fs                      "%string /\
  diffModule [module_A_new] module_A_old =
    Ok ["A                        2 new"; "- y: string"; "- z: null"]%string.
Proof.
  destruct pad_fixed_width as (Hlong & Habort & Hshort & Hheader).
  split; [|split; [|split]].
  - apply Hlong. simpl. lia.
  - destruct (Habort [module_A_new; module_long_new] module_long_old module_long_new
                [module_A_old] [module_A_old] eq_refl) as (Hthrow & Hcode & Hout).
    + simpl. lia.
    + discriminate.
    + split; [exact Hthrow|]. reflexivity.
  - destruct (Hshort "fs"%string) as (padding & Hpad & _); [simpl; lia|].
    reflexivity.
  - destruct (Hheader [module_A_new] module_A_old module_A_new eq_refl)
      as (padded & Hpad & Hblock); [simpl; lia | discriminate |].
    reflexivity.
Defined.

(** C5 fails on [module_long_old] and [module_long_new], two modules of the
    same name, which has 25 characters.  The newer one has one method whose
    name the older one has not, so the set of new methods is not empty; yet
    [pad] throws before the header line is printed, and the run ends with
    code 1 and no output where the claim has a header line and one method
    line. *)
Theorem long_name_block_is_not_printed :
  String.length longName = 25 /\
  findModule [module_long_new] module_long_old = Some module_long_new /\
  newMethodsOf module_long_old module_long_new = [plainMethod "f"] /\
  diffModule [module_long_new] module_long_old = Throw RangeError /\
  diffLoop [module_long_new] [module_long_old] = {| stdout := []; exitCode := 1 |}.
Proof.
  repeat split.
Qed.

(** * Further properties *)

(** ** [flatten] on arrays of any depth *)

(** [flatten] goes through concatenation: flattening two arrays put end to
    end is flattening each and putting the results end to end. *)
Theorem flatten_app (A : Type) (a b : list (nested A)) :
  flatten (a ++ b) = flatten a ++ flatten b.
Proof.
  unfold flatten at 1. rewrite fold_left_app.
  fold (flatten a). apply fold_flattenInto_acc.
Qed.

Lemma flattenInto_leaves (A : Type) (curr : nested A) :
  forall acc, flattenInto acc curr = acc ++ leaves curr.
Proof.
  induction curr as [x|a IH] using nested_ind; intro acc; [reflexivity|].
  simpl. f_equal.
  assert (H : forall acc0,
             fold_left (@flattenInto A) a acc0 = acc0 ++ List.concat (map leaves a)).
  { induction IH as [|c rest Hc _ IHrest]; intro acc0; simpl.
    - rewrite app_nil_r. reflexivity.
    - rewrite IHrest, Hc, app_assoc. reflexivity. }
  apply H.
Qed.

(** [flatten] returns the elements that are not arrays, at whatever depth
    they are, from left to right; an empty array at any depth gives
    nothing. *)
Theorem flatten_is_leaves (A : Type) (a : list (nested A)) :
  flatten a = List.concat (map leaves a).
Proof.
  change (flatten a) with (flattenInto [] (Arr a)).
  rewrite flattenInto_leaves. reflexivity.
Qed.

(** ** Normalisation: what succeeds, what is thrown, what is kept *)

Lemma rawMethods_eq (node : RawModuleNode) :
  rawMethods node =
  match rn_methods node with
  | Some ms => ms
  | None => []
  end ++ List.concat (map rawMethods (descendants node)).
Proof.
  destruct node as [n ms cs [ds|]]; reflexivity.
Qed.

Lemma ownMethods_Forall2 (node : RawModuleNode) (ms : list NormalizedMethod) :
  ownMethods node = Ok ms ->
  Forall2 (fun m nm => createMethod m = Ok nm)
    match rn_methods node with Some l => l | None => [] end ms.
Proof.
  unfold ownMethods. destruct (rn_methods node) as [l|]; intro H.
  - apply mapM_Ok_Forall2. exact H.
  - injection H as <-. constructor.
Qed.

(** After a successful normalisation the [methods] list holds, in order,
    the normalised form of every raw method of the module and of its
    descendants at any depth, and nothing else: no method is lost, repeated
    or moved, and the methods of classes are not in it. *)
Theorem methods_are_the_raw_methods (node : RawModuleNode) (r : NormalizedModule) :
  normalizeNode node = Ok r ->
  Forall2 (fun m nm => createMethod m = Ok nm) (rawMethods node) (methods r).
Proof.
  revert r. induction node as [node IH] using RawModuleNode_ind. intros r Hr.
  apply normalizeNode_inv in Hr.
  destruct Hr as (ms & cs & rs & Hms & _ & Hrs & ->). simpl.
  rewrite rawMethods_eq.
  apply Forall2_app; [apply ownMethods_Forall2; exact Hms|].
  apply Forall2_concat.
  induction Hrs as [|d rd ds rs' Hd Hrest IHrs]; simpl.
  - constructor.
  - inversion IH as [|d' ds' IHd IHds]; subst.
    constructor; [apply IHd; exact Hd | apply IHrs; exact IHds].
Qed.

Lemma methods_are_the_raw_methods_witness :
  normalizeNode node_fs = Ok normalized_fs /\
  Forall2 (fun m nm => createMethod m = Ok nm) (rawMethods node_fs) (methods normalized_fs).
Proof.
  split; [reflexivity|].
  exact (@methods_are_the_raw_methods node_fs normalized_fs eq_refl).
Defined.

Lemma throws_bind_eq {A B : Type} (r : result A) (k : A -> result B) :
  throws (bind r k) =
  match r with
  | Ok a => throws (k a)
  | Throw _ => true
  end.
Proof.
  destruct r; reflexivity.
Qed.

Lemma throws_false {A : Type} (r : result A) :
  throws r = false -> exists a, r = Ok a.
Proof.
  destruct r as [a|e]; [exists a; reflexivity | discriminate].
Qed.

Lemma mapM_Throw_inv {A B : Type} (f : A -> result B) (a : list A) (e : exn) :
  mapM f a = Throw e -> exists x, In x a /\ f x = Throw e.
Proof.
  induction a as [|x rest IH]; simpl; [discriminate|].
  destruct (f x) as [y|e'] eqn:Hx; simpl.
  - destruct (mapM f rest) as [ys|e'']; simpl; [discriminate|].
    intro H. injection H as ->.
    destruct (IH eq_refl) as (x' & Hin & Hx'). exists x'. auto.
  - intro H. injection H as ->. exists x. auto.
Qed.

Lemma existsb_filter {A : Type} (p f : A -> bool) (l : list A) :
  existsb f (filter p l) = existsb (fun x => p x && f x) l.
Proof.
  induction l as [|x l IH]; simpl; [reflexivity|].
  destruct (p x); simpl; rewrite IH; reflexivity.
Qed.

Lemma existsb_pointwise {A : Type} (f g : A -> bool) (l : list A) :
  Forall (fun x => f x = g x) l -> existsb f l = existsb g l.
Proof.
  induction 1 as [|x l Hx _ IH]; simpl; [reflexivity|].
  rewrite Hx, IH. reflexivity.
Qed.

Lemma createMethod_throws (m : RawMethodDescriptor) :
  throws (createMethod m) = badSignatures m.
Proof.
  unfold createMethod, badSignatures, assert_strictEqual.
  destruct (rm_signatures m) as [|s [|s' rest]]; reflexivity.
Qed.

Lemma createMethod_Throw_inv (m : RawMethodDescriptor) (e : exn) :
  createMethod m = Throw e -> e = AssertionError.
Proof.
  unfold createMethod, assert_strictEqual.
  destruct (rm_signatures m) as [|s [|s' rest]]; simpl; congruence.
Qed.

Lemma ownMethods_throws (node : RawModuleNode) :
  throws (ownMethods node) =
  match rn_methods node with
  | Some ms => existsb badSignatures ms
  | None => false
  end.
Proof.
  unfold ownMethods. destruct (rn_methods node) as [ms|]; [|reflexivity].
  rewrite mapM_throws. apply existsb_pointwise.
  apply Forall_forall. intros m _. apply createMethod_throws.
Qed.

Lemma createClass_throws (c : RawClassDescriptor) :
  hasMethods c && throws (createClass c) = classHasBadMethod c.
Proof.
  unfold hasMethods, createClass, classHasBadMethod.
  destruct (rc_methods c) as [ms|]; [|reflexivity].
  simpl. transitivity (throws (mapM createMethod ms)).
  - destruct (mapM createMethod ms); reflexivity.
  - rewrite mapM_throws. apply existsb_pointwise, Forall_forall.
    intros m _. apply createMethod_throws.
Qed.

Lemma createClass_Throw_inv (c : RawClassDescriptor) (e : exn) :
  hasMethods c = true -> createClass c = Throw e -> e = AssertionError.
Proof.
  unfold hasMethods, createClass.
  destruct (rc_methods c) as [ms|]; [|discriminate].
  intros _ H. destruct (mapM createMethod ms) as [nms|e'] eqn:E; [discriminate H|].
  simpl in H. injection H as <-.
  apply mapM_Throw_inv in E. destruct E as (m & _ & Hm).
  exact (createMethod_Throw_inv _ Hm).
Qed.

Lemma ownClasses_throws (node : RawModuleNode) :
  throws (ownClasses node) =
  match rn_classes node with
  | Some cs => existsb classHasBadMethod cs
  | None => false
  end.
Proof.
  unfold ownClasses. destruct (rn_classes node) as [cs|]; [|reflexivity].
  rewrite mapM_throws, existsb_filter. apply existsb_pointwise, Forall_forall.
  intros c _. apply createClass_throws.
Qed.

Lemma pluck_throws {A B C : Type} (field : B -> C) (g : A -> result B) (ds : list A) :
  throws (pluck field (map (fun d => catch_null (g d)) ds)) =
  existsb (fun d => throws (g d)) ds.
Proof.
  unfold pluck. rewrite mapM_throws.
  induction ds as [|d ds IH]; simpl; [reflexivity|].
  rewrite IH. destruct (g d); reflexivity.
Qed.

Lemma normalizeNode_throws (node : RawModuleNode) :
  throws (normalizeNode node) =
  ownBadMethod node || existsb (fun d => throws (normalizeNode d)) (descendants node).
Proof.
  rewrite normalizeNode_eq. unfold ownBadMethod.
  rewrite <- ownMethods_throws, <- ownClasses_throws.
  destruct (ownMethods node) as [ms|e]; [cbn [bind throws orb] | reflexivity].
  destruct (ownClasses node) as [cs|e]; [cbn [bind throws orb] | reflexivity].
  unfold expanded.
  pose proof (pluck_throws methods normalizeNode (descendants node)) as Hm.
  pose proof (pluck_throws classes normalizeNode (descendants node)) as Hc.
  destruct (pluck methods _) as [pm|e]; [cbn [bind] | exact Hm].
  destruct (pluck classes _) as [pc|e]; [cbn [bind] | exact Hc].
  exact Hm.
Qed.

(** Normalisation of a node throws exactly when a method descriptor with a
    wrong number of signatures is among its methods, the methods of its
    classes that have a [methods] field, or those of a descendant at any
    depth; on every other node it returns a module. *)
Theorem normalizeNode_throws_iff_bad_method (node : RawModuleNode) :
  throws (normalizeNode node) = hasBadMethod node.
Proof.
  induction node as [node IH] using RawModuleNode_ind.
  rewrite normalizeNode_throws, hasBadMethod_eq. unfold ownBadMethod.
  f_equal. apply existsb_pointwise. exact IH.
Qed.

(** The exception that leaves the normalisation of a node: the
    AssertionError of [createMethod] when the wrong number of signatures is
    among the node's own methods or those of its own classes; a TypeError,
    with no trace of the assertion, when these are sound and the wrong
    number is in a descendant. *)
Theorem normalizeNode_exception (node : RawModuleNode) :
  (ownBadMethod node = true -> normalizeNode node = Throw AssertionError) /\
  (ownBadMethod node = false ->
   existsb hasBadMethod (descendants node) = true ->
   normalizeNode node = Throw TypeError).
Proof.
  split.
  - intro Hown. unfold ownBadMethod in Hown.
    rewrite <- ownMethods_throws, <- ownClasses_throws in Hown.
    rewrite normalizeNode_eq.
    destruct (ownMethods node) as [ms|e] eqn:Hms.
    + cbn [bind]. simpl in Hown.
      destruct (ownClasses node) as [cs|e] eqn:Hcs; [discriminate Hown|].
      cbn [bind]. f_equal.
      unfold ownClasses in Hcs. destruct (rn_classes node) as [l|]; [|discriminate Hcs].
      apply mapM_Throw_inv in Hcs. destruct Hcs as (c & Hin & Hc).
      apply filter_In in Hin. exact (createClass_Throw_inv _ (proj2 Hin) Hc).
    + cbn [bind]. f_equal.
      unfold ownMethods in Hms. destruct (rn_methods node) as [l|]; [|discriminate Hms].
      apply mapM_Throw_inv in Hms. destruct Hms as (m & _ & Hm).
      exact (createMethod_Throw_inv _ Hm).
  - intros Hown Hbelow. unfold ownBadMethod in Hown.
    rewrite <- ownMethods_throws, <- ownClasses_throws in Hown.
    apply orb_false_iff in Hown. destruct Hown as [Hms Hcs].
    apply throws_false in Hms. destruct Hms as [ms Hms].
    apply throws_false in Hcs. destruct Hcs as [cs Hcs].
    apply existsb_exists in Hbelow. destruct Hbelow as (d & Hin & Hd).
    rewrite normalizeNode_eq, Hms, Hcs. cbn [bind]. unfold expanded.
    rewrite (pluck_null methods normalizeNode _ _ Hin
               (normalizeNode_hasBadMethod _ Hd)).
    reflexivity.
Qed.

Lemma normalizeNode_exception_witness :
  normalizeNode node_brokenChild = Throw AssertionError /\
  normalizeNode node_parentOfBroken = Throw TypeError.
Proof.
  split.
  - apply (proj1 (normalizeNode_exception node_brokenChild)). reflexivity.
  - apply (proj2 (normalizeNode_exception node_parentOfBroken)); reflexivity.
Defined.

Lemma Forall2_Forall_right {A B : Type} (R : A -> B -> Prop) (P : B -> Prop)
    (xs : list A) (ys : list B) :
  (forall x y, R x y -> P y) -> Forall2 R xs ys -> Forall P ys.
Proof.
  intros HR H. induction H as [|x y xs ys Hxy _ IH]; constructor; eauto.
Qed.

Lemma Forall_concat {A : Type} (P : A -> Prop) (ls : list (list A)) :
  Forall (Forall P) ls -> Forall P (List.concat ls).
Proof.
  induction 1 as [|l ls Hl _ IH]; simpl; [constructor|].
  apply Forall_app. split; assumption.
Qed.

(** A property that every normalised method and every normalised class has
    holds of all members of a normalised module. *)
Lemma normalizeNode_members (PM : NormalizedMethod -> Prop) (PC : NormalizedClass -> Prop) :
  (forall m nm, createMethod m = Ok nm -> PM nm) ->
  (forall c nc, createClass c = Ok nc -> PC nc) ->
  forall node r, normalizeNode node = Ok r ->
                 Forall PM (methods r) /\ Forall PC (classes r).
Proof.
  intros HM HC node. induction node as [node IH] using RawModuleNode_ind. intros r Hr.
  apply normalizeNode_inv in Hr.
  destruct Hr as (ms & cs & rs & Hms & Hcs & Hrs & ->). simpl.
  assert (Hbelow : Forall (fun rd => Forall PM (methods rd) /\ Forall PC (classes rd)) rs).
  { clear Hms Hcs. induction Hrs as [|d rd ds rs' Hd _ IHrs]; [constructor|].
    inversion IH as [|d' ds' IHd IHds]; subst.
    constructor; [apply IHd; exact Hd | apply IHrs; exact IHds]. }
  split; apply Forall_app; split.
  - apply ownMethods_Forall2 in Hms. exact (Forall2_Forall_right _ HM Hms).
  - apply Forall_concat, Forall_map. eapply Forall_impl; [|exact Hbelow].
    intros rd [H _]. exact H.
  - apply ownClasses_Forall2 in Hcs. exact (Forall2_Forall_right _ HC Hcs).
  - apply Forall_concat, Forall_map. eapply Forall_impl; [|exact Hbelow].
    intros rd [_ H]. exact H.
Qed.

Lemma createMethod_returnType (m : RawMethodDescriptor) (nm : NormalizedMethod) :
  createMethod m = Ok nm -> returnType nm <> Some EmptyString.
Proof.
  unfold createMethod. intro H. bind_inv H.
  destruct (nth_error (rm_signatures m) 0) as [s0|]; [|discriminate H].
  injection H as <-. simpl.
  destruct (returnValueOf s0) as [[|c t]|]; simpl; congruence.
Qed.

(** In a normalised module no method, of the module or of one of its
    classes, has the empty string as [returnType]: the field is null or a
    string with at least one character. *)
Theorem returnType_is_never_empty (node : RawModuleNode) (r : NormalizedModule) :
  normalizeNode node = Ok r ->
  Forall (fun m => returnType m <> Some EmptyString) (methods r) /\
  Forall (fun c => Forall (fun m => returnType m <> Some EmptyString) (cls_methods c))
    (classes r).
Proof.
  apply normalizeNode_members.
  - exact createMethod_returnType.
  - intros c nc H. unfold createClass in H.
    destruct (rc_methods c) as [ms|]; [|discriminate H].
    bind_inv H. injection H as <-. simpl.
    apply mapM_Ok_Forall2 in Ha.
    exact (Forall2_Forall_right _ createMethod_returnType Ha).
Qed.

Lemma returnType_is_never_empty_witness :
  normalizeNode (leafModule "m" [method_emptyType]) =
    Ok (moduleOf "m" [plainMethod "f"]) /\
  Forall (fun m => returnType m <> Some EmptyString) [plainMethod "f"].
Proof.
  split; [reflexivity|].
  exact (proj1 (@returnType_is_never_empty (leafModule "m" [method_emptyType])
                  (moduleOf "m" [plainMethod "f"]) eq_refl)).
Defined.

(** ** The loading loop *)

Section LoadingLoop.
Variable getModuleDefinition : string -> string -> result RawDocument.

(** When the loading loop ends without exception, every module name of the
    list had its call return, a module or null, and the set built is made of
    the modules returned, in the order of the list: it has at most one
    entry for a name and none for a name whose call returned null. *)
Theorem collectModules_keeps_order (majorVersion : string) (moduleList : list string)
    (ms : list NormalizedModule) :
  collectModules getModuleDefinition majorVersion moduleList = Ok ms ->
  exists results,
    Forall2 (fun n o => createModuleForVersion getModuleDefinition n majorVersion None = Ok o)
      moduleList results /\
    ms = pushed results /\
    List.length ms <= List.length moduleList.
Proof.
  revert ms. induction moduleList as [|n rest IH]; intros ms H.
  - injection H as <-. exists []. repeat split; constructor.
  - cbn [collectModules] in H. bind_inv H. bind_inv H. injection H as <-.
    destruct (IH _ Ha0) as (results & Hres & -> & Hlen).
    exists (a :: results). split; [constructor; assumption|].
    destruct a as [m|]; simpl; split; try reflexivity; lia.
Qed.

(** The exception that leaves the loading loop is the one of the first
    module name whose call throws, whatever the names after it. *)
Theorem collectModules_first_exception (majorVersion moduleName : string)
    (pre post : list string) (e : exn) :
  Forall (fun n => throws (createModuleForVersion getModuleDefinition n majorVersion None)
                   = false) pre ->
  createModuleForVersion getModuleDefinition moduleName majorVersion None = Throw e ->
  collectModules getModuleDefinition majorVersion (pre ++ moduleName :: post) = Throw e.
Proof.
  intros Hpre Hthrow. induction Hpre as [|n pre Hn _ IH].
  - simpl app. cbn [collectModules]. rewrite Hthrow. reflexivity.
  - simpl app. cbn [collectModules].
    apply throws_false in Hn. destruct Hn as [m Hn]. rewrite Hn. cbn [bind].
    rewrite IH. reflexivity.
Qed.

End LoadingLoop.

Lemma collectModules_keeps_order_witness :
  collectModules (siteOf docs10 docs12) "12" ["addons"; "fs"] = Ok [normalized_fs] /\
  exists results,
    Forall2 (fun n o => createModuleForVersion (siteOf docs10 docs12) n "12" None = Ok o)
      ["addons"; "fs"] results /\
    [normalized_fs] = pushed results.
Proof.
  split; [reflexivity|].
  destruct (@collectModules_keeps_order (siteOf docs10 docs12) "12" ["addons"; "fs"]
              [normalized_fs] eq_refl) as (results & Hres & Hms & _).
  exists results. auto.
Defined.

Lemma collectModules_first_exception_witness :
  collectModules (siteOf docs10 docs12_twoTop) "12" ["fs"; "two"; "missing"]
  = Throw AssertionError.
Proof.
  apply (@collectModules_first_exception (siteOf docs10 docs12_twoTop) "12" "two"
           ["fs"] ["missing"] AssertionError).
  - repeat constructor.
  - reflexivity.
Defined.

(** ** The report: what ends it, what it leaves out *)

Lemma findModule_None (newModules : list NormalizedModule) (oldModule : NormalizedModule) :
  (forall n, In n newModules -> mod_name n <> mod_name oldModule) ->
  findModule newModules oldModule = None.
Proof.
  intro H. unfold findModule.
  destruct (find _ newModules) as [n|] eqn:E; [|reflexivity].
  apply find_some in E. destruct E as [Hin Heq].
  apply String.eqb_eq in Heq. exfalso. exact (H n Hin Heq).
Qed.

(** A module of the older set whose name no module of the newer set has
    ends the report: its callback throws a TypeError, even when it has no
    method at all; the run exits with code 1 after the blocks of the modules
    before it, and the modules after it are not compared. *)
Theorem older_only_module_ends_report (newModules pre rest : list NormalizedModule)
    (oldModule : NormalizedModule) :
  (forall n, In n newModules -> mod_name n <> mod_name oldModule) ->
  diffModule newModules oldModule = Throw TypeError /\
  exitCode (diffLoop newModules (pre ++ oldModule :: rest)) = 1 /\
  stdout (diffLoop newModules (pre ++ oldModule :: rest)) = stdout (diffLoop newModules pre).
Proof.
  intro H.
  assert (Hthrow : diffModule newModules oldModule = Throw TypeError).
  { unfold diffModule. rewrite (findModule_None _ _ H). reflexivity. }
  split; [exact Hthrow|].
  apply diffLoop_throw. rewrite Hthrow. reflexivity.
Qed.

Lemma older_only_module_ends_report_witness :
  diffModule [module_A_new] (moduleOf "gone" []) = Throw TypeError /\
  exitCode (diffLoop [module_A_new] [module_A_old; moduleOf "gone" []; module_A_old]) = 1 /\
  stdout (diffLoop [module_A_new] [module_A_old; moduleOf "gone" []; module_A_old])
    = ["A                        2 new"; "- y: string"; "- z: null"].
Proof.
  apply (@older_only_module_ends_report [module_A_new] [module_A_old] [module_A_old]
           (moduleOf "gone" [])).
  intros n [<-|[]]. discriminate.
Defined.

Lemma diffModule_no_new_name (newModules : list NormalizedModule)
    (oldModule newModule : NormalizedModule) :
  findModule newModules oldModule = Some newModule ->
  (forall m, In m (methods newModule) -> In (name m) (map name (methods oldModule))) ->
  diffModule newModules oldModule = Ok [].
Proof.
  intros Hfind Hnames. unfold diffModule. rewrite Hfind.
  assert (Hnone : newMethodsOf oldModule newModule = []).
  { destruct (newMethodsOf oldModule newModule) as [|m ms] eqn:E; [reflexivity|].
    assert (Hin : In m (newMethodsOf oldModule newModule)) by (rewrite E; left; reflexivity).
    apply newMethodsOf_spec in Hin. destruct Hin as [Hin Hnot].
    exfalso. exact (Hnot (Hnames m Hin)). }
  rewrite Hnone. reflexivity.
Qed.

(** Methods are compared by name alone and in one direction: when every
    method name of the newer module is a method name of the older one,
    nothing is printed for the pair, whatever methods the older module has
    that the newer has not and whatever the signatures and return types
    are. *)
Theorem nothing_printed_without_new_name (newModules : list NormalizedModule)
    (oldModule newModule : NormalizedModule) :
  findModule newModules oldModule = Some newModule ->
  (forall m, In m (methods newModule) -> In (name m) (map name (methods oldModule))) ->
  diffModule newModules oldModule = Ok [].
Proof.
  exact (@diffModule_no_new_name newModules oldModule newModule).
Qed.

Lemma nothing_printed_without_new_name_witness :
  diffModule [moduleOf "A" [ {| name := "x"; signature := "x(a, b)";
                               returnType := Some "number" |} ]]
    (moduleOf "A" [plainMethod "x"; plainMethod "removed"]) = Ok [].
Proof.
  apply (@nothing_printed_without_new_name _ _
           (moduleOf "A" [ {| name := "x"; signature := "x(a, b)";
                              returnType := Some "number" |} ]));
    [reflexivity|].
  intros m [<-|[]]. simpl. left. reflexivity.
Defined.

Lemma findModule_self (ms : list NormalizedModule) (o : NormalizedModule) :
  NoDup (map mod_name ms) -> In o ms -> findModule ms o = Some o.
Proof.
  unfold findModule. induction ms as [|n rest IH]; intros Hnodup Hin; [destruct Hin|].
  simpl in Hnodup. inversion Hnodup as [|x l Hnotin Hrest]; subst.
  simpl. destruct Hin as [->|Hin].
  - rewrite String.eqb_refl. reflexivity.
  - destruct (String.eqb_spec (mod_name n) (mod_name o)) as [Heq|_].
    + exfalso. apply Hnotin. rewrite Heq. apply in_map. exact Hin.
    + apply IH; assumption.
Qed.

(** A set of modules with distinct names compared with itself gives an
    empty report and exit code 0, and so does any part of it compared with
    the whole. *)
Theorem same_set_reports_nothing (ms older : list NormalizedModule) :
  NoDup (map mod_name ms) ->
  (forall o, In o older -> In o ms) ->
  diffLoop ms older = {| stdout := []; exitCode := 0 |}.
Proof.
  intros Hnodup Hsub. induction older as [|o rest IH]; [reflexivity|].
  simpl.
  rewrite (@diffModule_no_new_name ms o o).
  - rewrite IH; [reflexivity|]. intros o' Hin. apply Hsub. right. exact Hin.
  - apply findModule_self; [exact Hnodup | apply Hsub; left; reflexivity].
  - intros m Hin. apply in_map. exact Hin.
Qed.

Lemma same_set_reports_nothing_witness :
  diffLoop [module_A_new; module_B_new] [module_B_new; module_A_new]
  = {| stdout := []; exitCode := 0 |}.
Proof.
  apply same_set_reports_nothing.
  - simpl. repeat constructor; simpl; intuition discriminate.
  - intros o [<-|[<-|[]]]; simpl; auto.
Defined.

(** Among several modules of the newer set with the name of the older
    module, the first alone is compared: the report for the older module is
    the one made against that first module, whatever the others hold. *)
Theorem first_module_of_the_name_is_compared (before after : list NormalizedModule)
    (oldModule newModule : NormalizedModule) :
  mod_name newModule = mod_name oldModule ->
  (forall m, In m before -> mod_name m <> mod_name oldModule) ->
  diffModule (before ++ newModule :: after) oldModule = diffModule [newModule] oldModule.
Proof.
  intros Hname Hbefore.
  assert (H1 : findModule (before ++ newModule :: after) oldModule = Some newModule).
  { apply findModule_first. exists before, after.
    split; [reflexivity|]. split; [exact Hname | exact Hbefore]. }
  assert (H2 : findModule [newModule] oldModule = Some newModule).
  { apply findModule_first. exists [], [].
    split; [reflexivity|]. split; [exact Hname|]. intros m Hin. destruct Hin. }
  unfold diffModule. rewrite H1, H2. reflexivity.
Qed.

Lemma first_module_of_the_name_is_compared_witness :
  diffModule [module_B_new; module_A_old; module_A_new] module_A_old = Ok [] /\
  diffModule [module_A_new] module_A_old
    = Ok ["A                        2 new"; "- y: string"; "- z: null"]%string.
Proof.
  split; [|reflexivity].
  refine (eq_trans
            (@first_module_of_the_name_is_compared [module_B_new] [module_A_new]
               module_A_old module_A_old eq_refl _) eq_refl).
  intros m [<-|[]]. discriminate.
Defined.

Lemma diffModule_reportable (newModules : list NormalizedModule) (oldModule : NormalizedModule) :
  throws (diffModule newModules oldModule) = negb (reportable newModules oldModule).
Proof.
  unfold diffModule, reportable.
  destruct (findModule newModules oldModule) as [n|]; [|reflexivity].
  destruct (newMethodsOf oldModule n) as [|m ms]; [reflexivity|].
  cbn [List.length Nat.eqb].
  destruct (Nat.leb_spec (String.length (mod_name n)) 24) as [Hle|Hlt].
  - rewrite (pad_short _ Hle). reflexivity.
  - rewrite (pad_long _ Hlt). reflexivity.
Qed.

(** The report ends with code 0 exactly when every module of the older set
    has a module of its name in the newer set, with no new method or with a
    name of at most 24 characters; what is printed is then made of the
    blocks of all older modules, in their order. *)
Theorem report_completes_iff (newModules oldModules : list NormalizedModule) :
  Nat.eqb (exitCode (diffLoop newModules oldModules)) 0 =
    forallb (reportable newModules) oldModules /\
  (forallb (reportable newModules) oldModules = true ->
   exists blocks,
     Forall2 (fun o block => diffModule newModules o = Ok block) oldModules blocks /\
     stdout (diffLoop newModules oldModules) = List.concat blocks).
Proof.
  split.
  - induction oldModules as [|o rest IH]; [reflexivity|].
    simpl. pose proof (diffModule_reportable newModules o) as H.
    destruct (diffModule newModules o) as [block|e]; simpl in *;
      destruct (reportable newModules o); try discriminate H.
    + exact IH.
    + reflexivity.
  - induction oldModules as [|o rest IH]; intro Hall.
    + exists []. split; [constructor | reflexivity].
    + simpl in Hall. apply andb_true_iff in Hall. destruct Hall as [Ho Hrest].
      destruct (IH Hrest) as (blocks & Hblocks & Hout).
      pose proof (diffModule_reportable newModules o) as H. rewrite Ho in H.
      cbn [diffLoop].
      destruct (diffModule newModules o) as [block|e] eqn:E; [|discriminate H].
      exists (block :: blocks). split; [constructor; [exact E | exact Hblocks]|].
      cbn [stdout List.concat]. rewrite Hout. reflexivity.
Qed.

Lemma report_completes_iff_witness :
  exitCode (diffLoop [module_A_new; module_long_new] [module_A_old; module_long_new]) = 0 /\
  exists blocks,
    Forall2 (fun o block => diffModule [module_A_new; module_long_new] o = Ok block)
      [module_A_old; module_long_new] blocks /\
    stdout (diffLoop [module_A_new; module_long_new] [module_A_old; module_long_new])
      = List.concat blocks.
Proof.
  split; [reflexivity|].
  apply (proj2 (report_completes_iff [module_A_new; module_long_new]
                  [module_A_old; module_long_new])).
  reflexivity.
Defined.

(** ** The list of modules of the synopsis page *)

Lemma beforeDot_noDot (s : string) : noDot (Io.beforeDot s).
Proof.
  unfold noDot. induction s as [|c s IH]; simpl; [tauto|].
  destruct (Ascii.eqb_spec c ".") as [->|Hne]; simpl; [tauto|].
  intros [Hc|Hin]; [congruence | exact (IH Hin)].
Qed.

Lemma beforeDot_stem (stem rest : string) :
  noDot stem -> Io.beforeDot (stem ++ String "." rest) = stem.
Proof.
  unfold noDot. induction stem as [|c stem IH]; simpl; intro H; [reflexivity|].
  destruct (Ascii.eqb_spec c ".") as [->|_].
  - exfalso. apply H. left. reflexivity.
  - rewrite IH; [reflexivity|]. intro Hin. apply H. right. exact Hin.
Qed.

Lemma beforeDot_prefix (s : string) :
  s = Io.beforeDot s \/ exists rest, s = (Io.beforeDot s ++ String "." rest)%string.
Proof.
  induction s as [|c s IH]; simpl; [left; reflexivity|].
  destruct (Ascii.eqb_spec c ".") as [->|_].
  - right. exists s. reflexivity.
  - destruct IH as [IH|[rest IH]].
    + left. rewrite <- IH. reflexivity.
    + right. exists rest. simpl. rewrite <- IH. reflexivity.
Qed.

Lemma mapM_length {A B : Type} (f : A -> result B) (a : list A) (ys : list B) :
  mapM f a = Ok ys -> List.length ys = List.length a.
Proof.
  intro H. apply mapM_Ok_Forall2 in H.
  induction H; simpl; [reflexivity | f_equal; assumption].
Qed.

Lemma fetchModuleList_inv (fetch : string -> result Io.Response)
    (selectUl : string -> list Io.DomNode) (majorVersion : string) (names : list string) :
  Io.fetchModuleList fetch selectUl majorVersion = Ok names ->
  exists synopsisPage type name attribs children links,
    Io.get fetch (Io.synopsisUri majorVersion) = Ok synopsisPage /\
    nth_error (selectUl synopsisPage) 1 = Some (Io.DomElement type name attribs children) /\
    mapM Io.firstChildHref (filter Io.isListItem children) = Ok links /\
    mapM Io.linkStem links = Ok names.
Proof.
  unfold Io.fetchModuleList. intro H. bind_inv H. rename a into page.
  destruct (nth_error (selectUl page) 1) as [[type name attribs children|type data]|] eqn:E;
    try discriminate H.
  bind_inv H. rename a into links.
  exists page, type, name, attribs, children, links. auto.
Qed.

(** When [fetchModuleList] returns, the page was downloaded and has a
    second [ul]; the list returned has one name for each [li] element among
    the children of that [ul], in their order; each name has no dot in it
    and is the [href] of the first child of its [li], or what comes before
    the first dot of that [href]. *)
Theorem fetchModuleList_names (fetch : string -> result Io.Response)
    (selectUl : string -> list Io.DomNode) (majorVersion : string) (names : list string) :
  Io.fetchModuleList fetch selectUl majorVersion = Ok names ->
  exists synopsisPage type name attribs children,
    Io.get fetch (Io.synopsisUri majorVersion) = Ok synopsisPage /\
    nth_error (selectUl synopsisPage) 1 = Some (Io.DomElement type name attribs children) /\
    Forall2 (fun li stem =>
               exists href,
                 Io.firstChildHref li = Ok (Some href) /\
                 (href = stem \/ exists rest, href = (stem ++ String "." rest)%string) /\
                 noDot stem)
      (filter Io.isListItem children) names.
Proof.
  intro H. apply fetchModuleList_inv in H.
  destruct H as (page & type & name & attribs & children & links & Hget & Hul & Hlinks & Hnames).
  exists page, type, name, attribs, children. split; [exact Hget|]. split; [exact Hul|].
  apply mapM_Ok_Forall2 in Hlinks. apply mapM_Ok_Forall2 in Hnames.
  revert names Hnames.
  induction Hlinks as [|li link lis links Hli _ IH]; intros names Hnames.
  - inversion Hnames. constructor.
  - inversion Hnames as [|link' stem links' names' Hstem Hrest]; subst.
    constructor; [|apply IH; exact Hrest].
    destruct link as [href|]; [|discriminate Hstem].
    injection Hstem as <-. exists href.
    split; [exact Hli|]. split; [apply beforeDot_prefix | apply beforeDot_noDot].
Qed.

Lemma fetchModuleList_names_witness :
  Io.fetchModuleList (answering "<html>") (fun _ => sampleUls) "12"
    = Ok ["assert"; "fs"; "worker_threads"] /\
  exists synopsisPage type name attribs children,
    Io.get (answering "<html>") (Io.synopsisUri "12") = Ok synopsisPage /\
    nth_error sampleUls 1 = Some (Io.DomElement type name attribs children) /\
    Forall2 (fun li stem =>
               exists href,
                 Io.firstChildHref li = Ok (Some href) /\
                 (href = stem \/ exists rest, href = (stem ++ String "." rest)%string) /\
                 noDot stem)
      (filter Io.isListItem children) ["assert"; "fs"; "worker_threads"].
Proof.
  split; [reflexivity|].
  exact (@fetchModuleList_names (answering "<html>") (fun _ => sampleUls) "12"
           ["assert"; "fs"; "worker_threads"] eq_refl).
Defined.

(** A page laid out as expected gives the module names back: when the
    [li] elements of the second [ul] each start with an element whose
    [href] is a name without dot followed by a dot and anything, as in
    [fs.html], the list returned is the list of these names; text between
    the [li] elements and other children of the [ul] do not count. *)
Theorem fetchModuleList_of_links (fetch : string -> result Io.Response)
    (selectUl : string -> list Io.DomNode) (majorVersion synopsisPage : string)
    (type name : string) (attribs : list (string * string)) (children : list Io.DomNode)
    (names : list string) :
  Io.get fetch (Io.synopsisUri majorVersion) = Ok synopsisPage ->
  nth_error (selectUl synopsisPage) 1 = Some (Io.DomElement type name attribs children) ->
  Forall2 (fun li stem =>
             exists rest, Io.firstChildHref li = Ok (Some (stem ++ String "." rest)%string) /\
                          noDot stem)
    (filter Io.isListItem children) names ->
  Io.fetchModuleList fetch selectUl majorVersion = Ok names.
Proof.
  intros Hget Hul Hitems. unfold Io.fetchModuleList.
  rewrite Hget. cbn [bind]. rewrite Hul.
  assert (H : exists links,
             mapM Io.firstChildHref (filter Io.isListItem children) = Ok links /\
             mapM Io.linkStem links = Ok names).
  { induction Hitems as [|li stem lis names' (rest & Hli & Hstem) _ (links & Hl & Hn)].
    - exists []. split; reflexivity.
    - exists (Some (stem ++ String "." rest)%string :: links). split.
      + simpl. rewrite Hli. cbn [bind]. rewrite Hl. reflexivity.
      + simpl. rewrite (beforeDot_stem rest Hstem), Hn. reflexivity. }
  destruct H as (links & Hl & Hn). rewrite Hl. cbn [bind]. exact Hn.
Qed.

Lemma fetchModuleList_of_links_witness :
  Io.fetchModuleList (answering "<html>") (fun _ => sampleUls) "12"
    = Ok ["assert"; "fs"; "worker_threads"].
Proof.
  eapply (@fetchModuleList_of_links (answering "<html>") (fun _ => sampleUls) "12").
  - reflexivity.
  - reflexivity.
  - simpl. constructor; [exists "html"; split; [reflexivity|] |].
    { unfold noDot. simpl. intuition discriminate. }
    constructor; [exists "html"; split; [reflexivity|] |].
    { unfold noDot. simpl. intuition discriminate. }
    constructor; [exists "html#top"; split; [reflexivity|] | constructor].
    unfold noDot. simpl. intuition discriminate.
Defined.

Lemma Forall2_In_left {A B : Type} (R : A -> B -> Prop) (xs : list A) (ys : list B) (x : A) :
  Forall2 R xs ys -> In x xs -> exists y, In y ys /\ R x y.
Proof.
  induction 1 as [|x' y xs ys Hxy _ IH]; intro Hin; [destruct Hin|].
  destruct Hin as [->|Hin].
  - exists y. split; [left; reflexivity | exact Hxy].
  - destruct (IH Hin) as (y' & Hy' & HR). exists y'. split; [right; exact Hy' | exact HR].
Qed.

Lemma firstChildHref_Throw_inv (elem : Io.DomNode) (e : exn) :
  Io.firstChildHref elem = Throw e -> e = TypeError.
Proof.
  destruct elem as [t n a [|[t' n' a' k'|t' d'] rest]|t d]; simpl; congruence.
Qed.

Lemma linkStem_Throw_inv (link : option string) (e : exn) :
  Io.linkStem link = Throw e -> e = TypeError.
Proof.
  destruct link; simpl; congruence.
Qed.

(** What makes [fetchModuleList] throw: a response that is not ok, whatever
    its body; a page with fewer than two [ul] elements; an [li] in the
    second [ul] that has no child, or whose first child is not an element
    or has no [href].  The last two are TypeErrors. *)
Theorem fetchModuleList_throws (fetch : string -> result Io.Response)
    (selectUl : string -> list Io.DomNode) (majorVersion : string) :
  (forall response body,
      fetch (Io.synopsisUri majorVersion) = Ok response ->
      Io.ok response = false ->
      Io.text response = Ok body ->
      Io.fetchModuleList fetch selectUl majorVersion = Throw ExternalError) /\
  (forall synopsisPage,
      Io.get fetch (Io.synopsisUri majorVersion) = Ok synopsisPage ->
      List.length (selectUl synopsisPage) < 2 ->
      Io.fetchModuleList fetch selectUl majorVersion = Throw TypeError) /\
  (forall synopsisPage type name attribs children li,
      Io.get fetch (Io.synopsisUri majorVersion) = Ok synopsisPage ->
      nth_error (selectUl synopsisPage) 1 = Some (Io.DomElement type name attribs children) ->
      In li children ->
      Io.isListItem li = true ->
      (forall href, Io.firstChildHref li <> Ok (Some href)) ->
      Io.fetchModuleList fetch selectUl majorVersion = Throw TypeError).
Proof.
  split; [|split].
  - intros response body Hfetch Hok Hbody. unfold Io.fetchModuleList, Io.get.
    rewrite Hfetch. cbn [bind]. rewrite Hbody. cbn [bind]. rewrite Hok. reflexivity.
  - intros page Hget Hlen. unfold Io.fetchModuleList. rewrite Hget. cbn [bind].
    destruct (nth_error (selectUl page) 1) eqn:E; [|reflexivity].
    exfalso. assert (1 < List.length (selectUl page)); [|lia].
    apply nth_error_Some. rewrite E. discriminate.
  - intros page type name attribs children li Hget Hul Hin Hitem Hbad.
    unfold Io.fetchModuleList. rewrite Hget. cbn [bind]. rewrite Hul.
    assert (Hli : In li (filter Io.isListItem children)) by (apply filter_In; auto).
    destruct (mapM Io.firstChildHref (filter Io.isListItem children)) as [links|e] eqn:E.
    + cbn [bind]. apply mapM_Ok_Forall2 in E.
      destruct (@Forall2_In_left _ _ _ _ _ _ E Hli) as (link & Hlink & Hhref).
      destruct link as [href|]; [exfalso; exact (Hbad href Hhref)|].
      destruct (mapM Io.linkStem links) as [names|e] eqn:E'.
      * exfalso. apply mapM_Ok_Forall2 in E'.
        destruct (@Forall2_In_left _ _ _ _ _ _ E' Hlink) as (stem & _ & Hstem). discriminate Hstem.
      * f_equal. apply mapM_Throw_inv in E'. destruct E' as (l & _ & Hl).
        exact (linkStem_Throw_inv _ Hl).
    + cbn [bind]. f_equal. apply mapM_Throw_inv in E. destruct E as (x & _ & Hx).
      exact (firstChildHref_Throw_inv _ Hx).
Qed.

Lemma fetchModuleList_throws_witness :
  Io.fetchModuleList
    (fun _ => Ok {| Io.ok := false; Io.status := 404; Io.text := Ok "Not Found" |})
    (fun _ => sampleUls) "12" = Throw ExternalError /\
  Io.fetchModuleList (answering "<html>") (fun _ => [listEntry "fs.html" "fs"]) "12"
    = Throw TypeError /\
  Io.fetchModuleList (answering "<html>")
    (fun _ => [ Io.DomElement "tag" "ul" [] [];
                Io.DomElement "tag" "ul" []
                  [listEntry "fs.html" "fs"; Io.DomElement "tag" "li" [] []] ]) "12"
    = Throw TypeError.
Proof.
  split; [|split].
  - apply (proj1 (fetchModuleList_throws
                    (fun _ => Ok {| Io.ok := false; Io.status := 404;
                                    Io.text := Ok "Not Found" |})
                    (fun _ => sampleUls) "12")
             {| Io.ok := false; Io.status := 404; Io.text := Ok "Not Found" |}
             "Not Found"%string); reflexivity.
  - apply (proj1 (proj2 (fetchModuleList_throws (answering "<html>")
                           (fun _ => [listEntry "fs.html" "fs"]) "12"))
             "<html>"%string); [reflexivity | simpl; lia].
  - apply (proj2 (proj2 (fetchModuleList_throws (answering "<html>")
                           (fun _ => [ Io.DomElement "tag" "ul" [] [];
                                       Io.DomElement "tag" "ul" []
                                         [listEntry "fs.html" "fs";
                                          Io.DomElement "tag" "li" [] []] ]) "12"))
             "<html>"%string "tag"%string "ul"%string []
             [listEntry "fs.html" "fs"; Io.DomElement "tag" "li" [] []]
             (Io.DomElement "tag" "li" [] []));
      [reflexivity | reflexivity | simpl; auto | reflexivity | discriminate].
Defined.

(** ** The cache of documents *)

(** Once a call has returned a document, the next call for the same module
    and version asks the site nothing and leaves the disk as it is, whatever
    the site would answer by then.  After a call that found the cache file
    it returns the same document; after a call that downloaded the document
    it returns what [JSON.parse] makes of the text that was written, which
    is the same document whenever the document is parsed back from what it
    is written as.  This for a cache file that is read back as written. *)
Theorem getModuleDefinition_served_from_cache (F : Io.FileSystem) (J : Io.JsonCodec)
    (fetch fetch' : string -> result Io.Response) (d d' : Io.Disk F)
    (moduleName majorVersion : string) (doc : Io.Json J) :
  Io.ReadsBack F (Io.cachedFilePath majorVersion moduleName) (Io.stringify J doc) ->
  Io.getModuleDefinition F J fetch d moduleName majorVersion = (d', Ok doc) ->
  Io.getModuleDefinition F J fetch' d' moduleName majorVersion
    = (d', if Io.existsSync F d (Io.cachedFilePath majorVersion moduleName)
           then Ok doc
           else Io.parse J (Io.stringify J doc)) /\
  (Io.parse J (Io.stringify J doc) = Ok doc ->
   Io.getModuleDefinition F J fetch' d' moduleName majorVersion = (d', Ok doc)).
Proof.
  intros Hwrite Hfirst.
  assert (Hsecond :
            Io.getModuleDefinition F J fetch' d' moduleName majorVersion
            = (d', if Io.existsSync F d (Io.cachedFilePath majorVersion moduleName)
                   then Ok doc
                   else Io.parse J (Io.stringify J doc))).
  { unfold Io.getModuleDefinition in *.
    destruct (Io.existsSync F d (Io.cachedFilePath majorVersion moduleName)) eqn:Hexists.
    - injection Hfirst as <- H. rewrite Hexists, H. reflexivity.
    - destruct (Io.getJson J fetch _) as [module|e]; [|discriminate Hfirst].
      destruct (Io.writeFileSync F d _ _) as [d1 written] eqn:Hw.
      injection Hfirst as -> H.
      destruct written as [[]|e]; [|discriminate H]. injection H as ->.
      destruct (Hwrite _ _ Hw) as [Hthere Hread].
      rewrite Hthere, Hread. reflexivity. }
  split; [exact Hsecond|].
  intro Hround. rewrite Hsecond.
  destruct (Io.existsSync F d (Io.cachedFilePath majorVersion moduleName));
    [reflexivity | rewrite Hround; reflexivity].
Qed.

Lemma memoryDisk_ReadsBack (path content : string) : Io.ReadsBack memoryDisk path content.
Proof.
  intros d d' H. simpl in H.
  destruct (parentOf path) as [dir|].
  - destruct (find _ d) as [[p [c|]]|]; try discriminate H.
    injection H as <-. simpl. rewrite String.eqb_refl. auto.
  - injection H as <-. simpl. rewrite String.eqb_refl. auto.
Qed.

Lemma getModuleDefinition_served_from_cache_witness :
  (Io.getModuleDefinition memoryDisk textCodec (answering "{}")
     [("./cache/12", None)] "fs" "12"
     = ([("./cache/12/fs.json", Some "{}"); ("./cache/12", None)], Ok "{}") /\
   Io.getModuleDefinition memoryDisk textCodec unreachable
     [("./cache/12/fs.json", Some "{}"); ("./cache/12", None)] "fs" "12"
     = ([("./cache/12/fs.json", Some "{}"); ("./cache/12", None)], Ok "{}")) /\
  (Io.getModuleDefinition memoryDisk sampleCodec (answering "1e400")
     [("./cache/12", None)] "fs" "12"
     = ([("./cache/12/fs.json", Some "null"); ("./cache/12", None)], Ok SampleInfinity) /\
   Io.getModuleDefinition memoryDisk sampleCodec unreachable
     [("./cache/12/fs.json", Some "null"); ("./cache/12", None)] "fs" "12"
     = ([("./cache/12/fs.json", Some "null"); ("./cache/12", None)], Ok SampleNull)).
Proof.
  split; (split; [reflexivity|]).
  - exact (proj2 (@getModuleDefinition_served_from_cache memoryDisk textCodec
                    (answering "{}") unreachable
                    [("./cache/12"%string, None)]
                    [("./cache/12/fs.json"%string, Some "{}"%string);
                     ("./cache/12"%string, None)]
                    "fs" "12" "{}"%string
                    (memoryDisk_ReadsBack _ _) eq_refl) eq_refl).
  - exact (proj1 (@getModuleDefinition_served_from_cache memoryDisk sampleCodec
                    (answering "1e400") unreachable
                    [("./cache/12"%string, None)]
                    [("./cache/12/fs.json"%string, Some "null"%string);
                     ("./cache/12"%string, None)]
                    "fs" "12" SampleInfinity
                    (memoryDisk_ReadsBack _ _) eq_refl)).
Defined.

(** A download that fails is not cached.  When there is no cache file and
    the request fails, or the response is not ok, or its body does not
    parse, the call throws and the disk is as before, so that the next call
    asks the site again; a body that came with a response that is not ok is
    not written even if it parses. *)
Theorem getModuleDefinition_failure_not_cached (F : Io.FileSystem) (J : Io.JsonCodec)
    (fetch : string -> result Io.Response) (d : Io.Disk F)
    (moduleName majorVersion : string) :
  Io.existsSync F d (Io.cachedFilePath majorVersion moduleName) = false ->
  (forall e,
      fetch (Io.moduleUri majorVersion moduleName) = Throw e ->
      Io.getModuleDefinition F J fetch d moduleName majorVersion = (d, Throw e)) /\
  (forall response body,
      fetch (Io.moduleUri majorVersion moduleName) = Ok response ->
      Io.text response = Ok body ->
      Io.ok response = false ->
      Io.getModuleDefinition F J fetch d moduleName majorVersion
        = (d, Throw ExternalError)) /\
  (forall response body e,
      fetch (Io.moduleUri majorVersion moduleName) = Ok response ->
      Io.text response = Ok body ->
      Io.ok response = true ->
      Io.parse J body = Throw e ->
      Io.getModuleDefinition F J fetch d moduleName majorVersion = (d, Throw e)).
Proof.
  intro Hmiss. unfold Io.getModuleDefinition, Io.getJson, Io.get. rewrite Hmiss.
  split; [|split].
  - intros e Hfetch. rewrite Hfetch. reflexivity.
  - intros response body Hfetch Hbody Hok. rewrite Hfetch. cbn [bind].
    rewrite Hbody. cbn [bind]. rewrite Hok. reflexivity.
  - intros response body e Hfetch Hbody Hok Hparse. rewrite Hfetch. cbn [bind].
    rewrite Hbody. cbn [bind]. rewrite Hok. cbn [negb bind]. rewrite Hparse. reflexivity.
Qed.

Lemma getModuleDefinition_failure_not_cached_witness :
  Io.getModuleDefinition memoryDisk textCodec unreachable [] "fs" "12"
    = ([], Throw ExternalError) /\
  Io.getModuleDefinition memoryDisk textCodec
    (fun _ => Ok {| Io.ok := false; Io.status := 404; Io.text := Ok "{}" |}) [] "fs" "12"
    = ([], Throw ExternalError).
Proof.
  split.
  - apply (proj1 (@getModuleDefinition_failure_not_cached memoryDisk textCodec
                    unreachable [] "fs" "12" eq_refl)). reflexivity.
  - apply (proj1 (proj2 (@getModuleDefinition_failure_not_cached memoryDisk textCodec
                           (fun _ => Ok {| Io.ok := false; Io.status := 404;
                                           Io.text := Ok "{}" |})
                           [] "fs" "12" eq_refl))
             {| Io.ok := false; Io.status := 404; Io.text := Ok "{}" |} "{}"%string);
      reflexivity.
Defined.

(** [mkdir] can be repeated: on a directory that exists it changes nothing
    and cannot throw, [mkdirSync] not being called; and after a call that
    returned, the directory exists and a second call changes nothing; this
    for a file system where a directory just made is there. *)
Theorem mkdir_idempotent (F : Io.FileSystem) (d : Io.Disk F) (dir : string) :
  (Io.existsSync F d dir = true -> Io.mkdir F d dir = (d, Ok tt)) /\
  (Io.MkdirThenExists F ->
   forall d', Io.mkdir F d dir = (d', Ok tt) ->
              Io.existsSync F d' dir = true /\ Io.mkdir F d' dir = (d', Ok tt)).
Proof.
  split.
  - intro H. unfold Io.mkdir. rewrite H. reflexivity.
  - intros Hmk d' H.
    assert (Hthere : Io.existsSync F d' dir = true).
    { unfold Io.mkdir in H.
      destruct (Io.existsSync F d dir) eqn:E.
      - injection H as <-. exact E.
      - exact (Hmk _ _ _ H). }
    split; [exact Hthere|]. unfold Io.mkdir. rewrite Hthere. reflexivity.
Qed.

Lemma memoryDisk_MkdirThenExists : Io.MkdirThenExists memoryDisk.
Proof.
  intros d dir d' H. simpl in H. injection H as <-.
  simpl. rewrite String.eqb_refl. reflexivity.
Qed.

Lemma mkdir_idempotent_witness :
  Io.mkdir memoryDisk [("./cache/12", None)] "./cache/12" = ([("./cache/12", None)], Ok tt) /\
  Io.existsSync memoryDisk [("./cache/12", None)] "./cache/12" = true.
Proof.
  split.
  - apply (proj1 (mkdir_idempotent memoryDisk [("./cache/12"%string, None)] "./cache/12")).
    reflexivity.
  - apply (proj2 (mkdir_idempotent memoryDisk [] "./cache/12")
             memoryDisk_MkdirThenExists [("./cache/12"%string, None)] eq_refl).
Defined.

Lemma string_app_inv_tail (s s' t : string) :
  (s ++ t)%string = (s' ++ t)%string -> s = s'.
Proof.
  revert s'. induction s as [|c s IH]; intros [|c' s'] H; simpl in H.
  - reflexivity.
  - exfalso. apply (f_equal String.length) in H. simpl in H.
    rewrite string_length_app in H. lia.
  - exfalso. apply (f_equal String.length) in H. simpl in H.
    rewrite string_length_app in H. lia.
  - injection H as -> H. f_equal. apply IH. exact H.
Qed.

Lemma string_split_at_slash (v v' t t' : string) :
  noSlash v -> noSlash v' ->
  (v ++ String "/" t)%string = (v' ++ String "/" t')%string ->
  v = v' /\ t = t'.
Proof.
  unfold noSlash. revert v'. induction v as [|c v IH]; intros [|c' v'] Hv Hv' H; simpl in *.
  - injection H as ->. auto.
  - injection H as <- _. exfalso. apply Hv'. left. reflexivity.
  - injection H as -> _. exfalso. apply Hv. left. reflexivity.
  - injection H as -> H.
    destruct (IH v') as [-> ->]; auto.
Qed.

(** Two pairs of a version and a module name have the same cache file only
    if they are the same pair, provided the versions have no slash in
    them. *)
Theorem cachedFilePath_injective (majorVersion majorVersion' moduleName moduleName' : string) :
  noSlash majorVersion ->
  noSlash majorVersion' ->
  Io.cachedFilePath majorVersion moduleName = Io.cachedFilePath majorVersion' moduleName' ->
  majorVersion = majorVersion' /\ moduleName = moduleName'.
Proof.
  intros Hv Hv' H. unfold Io.cachedFilePath in H. simpl in H.
  injection H as H.
  change ("/" ++ moduleName ++ ".json")%string
    with (String "/" (moduleName ++ ".json")) in H.
  change ("/" ++ moduleName' ++ ".json")%string
    with (String "/" (moduleName' ++ ".json")) in H.
  destruct (string_split_at_slash _ _ Hv Hv' H) as [-> Ht].
  split; [reflexivity|]. exact (string_app_inv_tail _ _ _ Ht).
Qed.

Lemma cachedFilePath_injective_witness :
  Io.cachedFilePath "10" "fs" <> Io.cachedFilePath "12" "fs" /\
  Io.cachedFilePath "12" "fs" <> Io.cachedFilePath "12" "path".
Proof.
  split; intro H;
    apply cachedFilePath_injective in H;
    try (unfold noSlash; simpl; intuition discriminate);
    destruct H as [Hv Hm]; discriminate.
Defined.
